(** * wclaude: a shallow embedding of runner.js and blocklist.js

    JavaScript strings are modelled as Rocq [string]s of ASCII characters
    (the paths, commands and messages the hooks see); numbers as [Z].
    Regular expressions of the blocklist are transcribed into a small
    regular-expression syntax decided with Brzozowski derivatives; a
    RegExp [test] without the [g] flag is "some substring matches". *)

From Stdlib Require Import String Ascii List Bool ZArith Lia.
Import ListNotations.
Set Warnings "-register-all".
Open Scope string_scope.
Open Scope Z_scope.

(* ================================================================= *)
(** ** Characters and strings *)

Definition code (c : ascii) : Z := Z.of_nat (nat_of_ascii c).

Definition is_upper (c : ascii) : bool := (65 <=? code c) && (code c <=? 90).
Definition is_lower (c : ascii) : bool := (97 <=? code c) && (code c <=? 122).
Definition is_alpha (c : ascii) : bool := is_upper c || is_lower c.
Definition is_digit (c : ascii) : bool := (48 <=? code c) && (code c <=? 57).
Definition is_alnum (c : ascii) : bool := is_alpha c || is_digit c.
(** [\s] restricted to ASCII: tab, LF, VT, FF, CR and space. *)
Definition is_space (c : ascii) : bool :=
  ((9 <=? code c) && (code c <=? 13)) || (code c =? 32).
(** [.] matches everything but the line terminators (ASCII: LF, CR). *)
Definition not_line_terminator (c : ascii) : bool :=
  negb ((code c =? 10) || (code c =? 13)).

(** [String.prototype.toLowerCase] / [toUpperCase] on one ASCII char. *)
Definition to_lower (c : ascii) : ascii :=
  if is_upper c then ascii_of_nat (nat_of_ascii c + 32) else c.
Definition to_upper (c : ascii) : ascii :=
  if is_lower c then ascii_of_nat (nat_of_ascii c - 32) else c.

Fixpoint lowercase (s : string) : string :=
  match s with
  | EmptyString => EmptyString
  | String c s' => String (to_lower c) (lowercase s')
  end.

(** [haystack.includes(needle)] *)
Fixpoint includes (haystack needle : string) : bool :=
  String.prefix needle haystack ||
  match haystack with
  | EmptyString => false
  | String _ h' => includes h' needle
  end.

(** [(s.match(/c/g) || []).length]: the number of occurrences of [c]. *)
Fixpoint count_char (c : ascii) (s : string) : nat :=
  match s with
  | EmptyString => O
  | String d s' => (if Ascii.eqb c d then 1 else 0) + count_char c s'
  end%nat.

(* ================================================================= *)
(** ** Regular expressions *)

Module Regex.

Inductive regex : Type :=
| RNone : regex
| REps : regex
| RChr : (ascii -> bool) -> regex
| RSeq : regex -> regex -> regex
| RAlt : regex -> regex -> regex
| RStar : regex -> regex.

Fixpoint nullable (r : regex) : bool :=
  match r with
  | RNone => false
  | REps => true
  | RChr _ => false
  | RSeq r1 r2 => nullable r1 && nullable r2
  | RAlt r1 r2 => nullable r1 || nullable r2
  | RStar _ => true
  end.

(** Smart constructors: they only drop the empty language and [REps]
    units, so the language is unchanged. *)
Definition seq (r1 r2 : regex) : regex :=
  match r1, r2 with
  | RNone, _ => RNone
  | _, RNone => RNone
  | REps, _ => r2
  | _, REps => r1
  | _, _ => RSeq r1 r2
  end.

Definition alt (r1 r2 : regex) : regex :=
  match r1, r2 with
  | RNone, _ => r2
  | _, RNone => r1
  | _, _ => RAlt r1 r2
  end.

Fixpoint deriv (c : ascii) (r : regex) : regex :=
  match r with
  | RNone => RNone
  | REps => RNone
  | RChr p => if p c then REps else RNone
  | RSeq r1 r2 =>
      alt (seq (deriv c r1) r2) (if nullable r1 then deriv c r2 else RNone)
  | RAlt r1 r2 => alt (deriv c r1) (deriv c r2)
  | RStar r1 => seq (deriv c r1) (RStar r1)
  end.

(** [cur] is the union of the derivatives of [r0] by every suffix of the
    text consumed so far: some substring is in the language of [r0] iff
    [cur] is nullable at some point. *)
Fixpoint search (r0 cur : regex) (s : string) : bool :=
  nullable cur ||
  match s with
  | EmptyString => false
  | String c s' => search r0 (alt (deriv c cur) r0) s'
  end.

(** [RegExp.prototype.test] for a regex without the [g] or [y] flag. *)
Definition test (r : regex) (s : string) : bool := search r r s.

(** Building blocks of the transcribed patterns. *)
Definition chr (p : ascii -> bool) : regex := RChr p.
(** A class under the [i] flag: some case variant of [c] is in it. *)
Definition ichr (p : ascii -> bool) : regex :=
  RChr (fun c => p c || p (to_lower c) || p (to_upper c)).
(** A negated class [[^...]] under the [i] flag. *)
Definition nichr (p : ascii -> bool) : regex :=
  RChr (fun c => negb (p c || p (to_lower c) || p (to_upper c))).
Definition is_char (d : ascii) (c : ascii) : bool := Ascii.eqb d c.

Fixpoint lit (s : string) : regex :=
  match s with
  | EmptyString => REps
  | String c s' => RSeq (chr (is_char c)) (lit s')
  end.

Fixpoint lit_i (s : string) : regex :=
  match s with
  | EmptyString => REps
  | String c s' => RSeq (ichr (is_char c)) (lit_i s')
  end.

Definition plus (r : regex) : regex := RSeq r (RStar r).
Definition dot : regex := chr not_line_terminator.

Fixpoint seqs (rs : list regex) : regex :=
  match rs with
  | [] => REps
  | [r] => r
  | r :: rs' => RSeq r (seqs rs')
  end.

Fixpoint alts (rs : list regex) : regex :=
  match rs with
  | [] => RNone
  | [r] => r
  | r :: rs' => RAlt r (alts rs')
  end.

End Regex.

Import Regex.

(* ================================================================= *)
(** ** blocklist.js *)

Module Blocklist.

Record cygpath_rule : Type := {
  cr_name : string;
  cr_pattern : regex;
  cr_reason : string
}.

Record safety_rule : Type := {
  sr_name : string;
  sr_detect : regex;
  sr_unless : regex;
  sr_reason : string
}.

Definition quote : ascii := "'"%char.

(** [/'[^']*'[^']*'/] *)
Definition nested_quotes_re : regex :=
  seqs [lit "'"; RStar (nichr (is_char quote)); lit "'";
        RStar (nichr (is_char quote)); lit "'"].

(** [/\$\(|`|\\n|\\r/]: the last two alternatives are a backslash
    followed by the letter n or r. *)
Definition shell_expansion_re : regex :=
  alts [lit "$("; lit "`"; lit "\n"; lit "\r"].

(** [/\\\\\\\\[A-Za-z0-9]|\/\/[A-Za-z0-9]+\/[A-Za-z0-9]/] *)
Definition unc_path_re : regex :=
  alts [seqs [lit "\\\\"; chr is_alnum];
        seqs [lit "//"; plus (chr is_alnum); lit "/"; chr is_alnum]].

Definition cygpathRules : list cygpath_rule := [
  {| cr_name := "nested-quotes"; cr_pattern := nested_quotes_re;
     cr_reason := "Path contains nested quotes (cygpath crash risk) - use Read/Glob tools instead" |};
  {| cr_name := "shell-expansion"; cr_pattern := shell_expansion_re;
     cr_reason := "Path contains shell expansion (cygpath crash risk) - use Read/Glob tools instead" |};
  {| cr_name := "unc-path"; cr_pattern := unc_path_re;
     cr_reason := "UNC network path detected (cygpath crash risk) - map drive first or use local path" |}
].

(** [/dir.*\/s/i] *)
Definition dir_detect : regex := seqs [lit_i "dir"; RStar dot; lit_i "/s"].
(** [/\*\.|\.json|\.md|\.txt|\.sh|\.toml|\.xml|\.cs|\.js|\.ts|\.py/i] *)
Definition dir_unless : regex :=
  alts (map lit_i ["*."; ".json"; ".md"; ".txt"; ".sh"; ".toml"; ".xml";
                   ".cs"; ".js"; ".ts"; ".py"]).
(** [/find.*(Users\/|\/c\/Users|\/home\/[^\/]+\/|\.claude)/i] *)
Definition find_detect : regex :=
  seqs [lit_i "find"; RStar dot;
        alts [lit_i "Users/"; lit_i "/c/Users";
              seqs [lit_i "/home/"; plus (nichr (is_char "/"%char)); lit_i "/"];
              lit_i ".claude"]].
(** [/-maxdepth|timeout/i] *)
Definition find_unless : regex := alts [lit_i "-maxdepth"; lit_i "timeout"].
(** [/tree.*(Users\/|\.claude|\/c\/Users|\/home)/i] *)
Definition tree_detect : regex :=
  seqs [lit_i "tree"; RStar dot;
        alts [lit_i "Users/"; lit_i ".claude"; lit_i "/c/Users"; lit_i "/home"]].
(** [/-L\s+\d+|-l/i] *)
Definition tree_unless : regex :=
  alts [seqs [lit_i "-L"; plus (ichr is_space); plus (ichr is_digit)]; lit_i "-l"].
(** [/git\s+(log|diff|show).*--all/i] *)
Definition git_detect : regex :=
  seqs [lit_i "git"; plus (ichr is_space);
        alts [lit_i "log"; lit_i "diff"; lit_i "show"]; RStar dot; lit_i "--all"].
(** [/-n\s+\d+|--max-count/i] *)
Definition git_unless : regex :=
  alts [seqs [lit_i "-n"; plus (ichr is_space); plus (ichr is_digit)];
        lit_i "--max-count"].

(** The double-quote character, spliced into the reason text below. *)
Definition dq : string := String (ascii_of_nat 34) EmptyString.

Definition safetyRules : list safety_rule := [
  {| sr_name := "dir-recursive"; sr_detect := dir_detect; sr_unless := dir_unless;
     sr_reason := "dir /s without file pattern - use dir " ++ dq ++ "path\*.ext" ++ dq
                  ++ " /s or Glob tool" |};
  {| sr_name := "find-no-maxdepth"; sr_detect := find_detect; sr_unless := find_unless;
     sr_reason := "find on user directory without -maxdepth - add -maxdepth N or use Glob tool" |};
  {| sr_name := "tree-no-depth"; sr_detect := tree_detect; sr_unless := tree_unless;
     sr_reason := "tree without depth limit - add -L N or use ls" |};
  {| sr_name := "git-all-no-limit"; sr_detect := git_detect; sr_unless := git_unless;
     sr_reason := "git --all without limit - add -n N or --max-count=N" |}
].

Definition maxPathLength : nat := 260.

(** The greedy run [[^ ]+] at the front of [s]: (run, rest). *)
Fixpoint take_nonspace (s : string) : string * string :=
  match s with
  | String c s' =>
      if Ascii.eqb c " "%char then (EmptyString, s)
      else let (run, rest) := take_nonspace s' in (String c run, rest)
  | EmptyString => (EmptyString, EmptyString)
  end.

(** One attempt of [/[A-Za-z]:\\[^ ]+|\/[^ ]+/] anchored at the front of
    [s]: the match and what follows it. *)
Definition path_at (s : string) : option (string * string) :=
  match s with
  | String l (String ":" (String "\" (String c s'))) =>
      if is_alpha l && negb (Ascii.eqb c " "%char) then
        let (run, rest) := take_nonspace (String c s') in
        Some (String l (String ":" (String "\" run)), rest)
      else
        None
  | _ => None
  end.

Definition path_at_slash (s : string) : option (string * string) :=
  match s with
  | String "/" (String c s') =>
      if Ascii.eqb c " "%char then None
      else let (run, rest) := take_nonspace (String c s') in
           Some (String "/" run, rest)
  | _ => None
  end.

(** [command.match(/[A-Za-z]:\\[^ ]+|\/[^ ]+/g) || []]: leftmost matches,
    first alternative tried first, scanning resumes after each match. *)
Fixpoint path_matches_fuel (fuel : nat) (s : string) : list string :=
  match fuel with
  | O => []
  | S fuel' =>
      match s with
      | EmptyString => []
      | String _ s' =>
          match path_at s with
          | Some (m, rest) => m :: path_matches_fuel fuel' rest
          | None =>
              match path_at_slash s with
              | Some (m, rest) => m :: path_matches_fuel fuel' rest
              | None => path_matches_fuel fuel' s'
              end
          end
      end
  end.

Definition path_matches (s : string) : list string :=
  path_matches_fuel (String.length s) s.

Record validation : Type := {
  allowed : bool;
  reason : option string
}.

Definition allow : validation := {| allowed := true; reason := None |}.
Definition deny (r : string) : validation := {| allowed := false; reason := Some r |}.

Definition unbalanced_reason : string :=
  "Command has unbalanced quotes (cygpath crash risk) - ensure quotes are paired".
Definition path_length_reason : string :=
  "Path exceeds 260 characters (cygpath crash risk) - use shorter paths".

(** [for (const rule of cygpathRules) if (rule.pattern.test(command)) ...] *)
Fixpoint check_cygpath (rules : list cygpath_rule) (command : string)
  : option string :=
  match rules with
  | [] => None
  | rule :: rules' =>
      if test (cr_pattern rule) command then Some (cr_reason rule)
      else check_cygpath rules' command
  end.

Definition safety_fires (rule : safety_rule) (command : string) : bool :=
  test (sr_detect rule) command && negb (test (sr_unless rule) command).

(** [for (const rule of safetyRules)
       if (rule.detect.test(command) && !rule.unless.test(command)) ...] *)
Fixpoint check_safety (rules : list safety_rule) (command : string)
  : option string :=
  match rules with
  | [] => None
  | rule :: rules' =>
      if safety_fires rule command then Some (sr_reason rule)
      else check_safety rules' command
  end.

(** [validateCommand]; a non-string argument is allowed by the first test
    as the empty string is, so only strings are modelled. *)
Definition validateCommand (command : string) : validation :=
  if String.eqb command EmptyString then allow
  else if Nat.odd (count_char quote command) then deny unbalanced_reason
  else match check_cygpath cygpathRules command with
  | Some r => deny r
  | None =>
      if existsb (fun p => Nat.ltb maxPathLength (String.length p))
                 (path_matches command)
      then deny path_length_reason
      else match check_safety safetyRules command with
           | Some r => deny r
           | None => allow
           end
  end.

End Blocklist.

(* ================================================================= *)
(** ** windowsToPosix *)

Module Paths.

(** [.replace(/\\/g, '/')] *)
Fixpoint backslash_to_slash (s : string) : string :=
  match s with
  | EmptyString => EmptyString
  | String c s' =>
      String (if Ascii.eqb c "\"%char then "/"%char else c) (backslash_to_slash s')
  end.

(** [.replace(/^([A-Z]):/i, '/$1')] *)
Definition drive_prefix (s : string) : string :=
  match s with
  | String l (String c rest) =>
      if is_alpha l && Ascii.eqb c ":"%char then String "/" (String l rest) else s
  | _ => s
  end.

(** [.replace(/^\/[A-Z]/i, match => match.toLowerCase())] *)
Definition lower_after_root (s : string) : string :=
  match s with
  | String c (String l rest) =>
      if Ascii.eqb c "/"%char && is_alpha l then String "/" (String (to_lower l) rest)
      else s
  | _ => s
  end.

Definition windowsToPosix (windowsPath : string) : string :=
  lower_after_root (drive_prefix (backslash_to_slash windowsPath)).

(** The last two steps of [windowsToPosix]. *)
Definition finish (t : string) : string := lower_after_root (drive_prefix t).

End Paths.

(* ================================================================= *)
(** ** JSON values and JavaScript property access *)

Module Json.

Inductive json : Type :=
| JNull : json
| JBool : bool -> json
| JNum : Z -> json
| JStr : string -> json
| JArr : list json -> json
| JObj : list (string * json) -> json.

(** A JavaScript value read from a parsed JSON value. *)
Inductive jsval : Type :=
| Undefined : jsval
| Val : json -> jsval.

Fixpoint lookup (k : string) (fields : list (string * json)) : option json :=
  match fields with
  | [] => None
  | (k', v) :: fields' => if String.eqb k k' then Some v else lookup k fields'
  end.

(** Assignment of an own property: replaced in place, or appended. *)
Fixpoint update (k : string) (v : json) (fields : list (string * json))
  : list (string * json) :=
  match fields with
  | [] => [(k, v)]
  | (k', v') :: fields' =>
      if String.eqb k k' then (k', v) :: fields' else (k', v') :: update k v fields'
  end.

(** [v[k]] on a value produced by [JSON.parse]; [None] is the TypeError
    thrown by a property read on [null].  Arrays and strings have a
    [length]; no other name reaches an inherited property here. *)
Definition get_prop (v : json) (k : string) : option jsval :=
  match v with
  | JNull => None
  | JObj fields =>
      Some (match lookup k fields with Some x => Val x | None => Undefined end)
  | JArr xs =>
      Some (if String.eqb k "length" then Val (JNum (Z.of_nat (List.length xs)))
            else Undefined)
  | JStr s =>
      Some (if String.eqb k "length" then Val (JNum (Z.of_nat (String.length s)))
            else Undefined)
  | JBool _ | JNum _ => Some Undefined
  end.

(** [v?.[k]] on a value already read: nullish short-circuits. *)
Definition opt_prop (v : jsval) (k : string) : jsval :=
  match v with
  | Undefined | Val JNull => Undefined
  | Val x => match get_prop x k with Some r => r | None => Undefined end
  end.

Definition truthy (v : jsval) : bool :=
  match v with
  | Undefined | Val JNull => false
  | Val (JBool b) => b
  | Val (JNum n) => negb (Z.eqb n 0)
  | Val (JStr s) => negb (String.eqb s EmptyString)
  | Val (JArr _) | Val (JObj _) => true
  end.

Fixpoint has_key (k : string) (v : json) : bool :=
  match v with
  | JObj fields =>
      existsb (fun kv => String.eqb (fst kv) k || has_key k (snd kv)) fields
  | JArr xs => existsb (has_key k) xs
  | _ => false
  end.

Definition dq : string := String (ascii_of_nat 34) EmptyString.

Fixpoint escape (s : string) : string :=
  match s with
  | EmptyString => EmptyString
  | String c s' =>
      if Ascii.eqb c (ascii_of_nat 34) then String "\" (String c (escape s'))
      else if Ascii.eqb c "\"%char then String "\" (String c (escape s'))
      else String c (escape s')
  end.

(** Decimal digits of a natural number. *)
Fixpoint digits_fuel (fuel n : nat) (acc : string) : string :=
  match fuel with
  | O => acc
  | S fuel' =>
      let d := String (ascii_of_nat (48 + Nat.modulo n 10)) acc in
      if Nat.ltb n 10 then d else digits_fuel fuel' (Nat.div n 10) d
  end.

Definition show_Z (z : Z) : string :=
  let s := digits_fuel (S (Z.to_nat (Z.abs z))) (Z.to_nat (Z.abs z)) EmptyString in
  if z <? 0 then "-" ++ s else s.

(** [JSON.stringify(v)] (compact form); only quote and backslash need
    escaping in the strings this development serialises. *)
Fixpoint stringify (v : json) : string :=
  match v with
  | JNull => "null"
  | JBool true => "true"
  | JBool false => "false"
  | JNum n => show_Z n
  | JStr s => dq ++ escape s ++ dq
  | JArr xs =>
      "[" ++ String.concat "," (map stringify xs) ++ "]"
  | JObj fields =>
      "{" ++ String.concat ","
               (map (fun kv => dq ++ escape (fst kv) ++ dq ++ ":" ++ stringify (snd kv))
                    fields) ++ "}"
  end.

(** A [JSON.parse] that knows one document: it returns [v] on the text
    [JSON.stringify(v)] and throws a [SyntaxError] on anything else. *)
Definition parse_only (v : json) (text : string) : option json :=
  if String.eqb text (stringify v) then Some v else None.

End Json.

Import Json.

(* ================================================================= *)
(** ** handlePermissionRequest *)

Module Permission.

(** [path.basename] of the win32 path module on a string: a drive prefix
    and trailing separators are ignored, the last segment is returned. *)
Fixpoint basename_segments (s cur last : string) : string :=
  match s with
  | EmptyString => if String.eqb cur EmptyString then last else cur
  | String c s' =>
      if Ascii.eqb c "/"%char || Ascii.eqb c "\"%char then
        basename_segments s' EmptyString
          (if String.eqb cur EmptyString then last else cur)
      else basename_segments s' (cur ++ String c EmptyString) last
  end.

Definition basename_str (p : string) : string :=
  match p with
  | String l (String ":" rest) =>
      if is_alpha l then basename_segments rest EmptyString EmptyString
      else basename_segments p EmptyString EmptyString
  | _ => basename_segments p EmptyString EmptyString
  end.

(** [path.basename(x)]: [None] is the TypeError raised for a non-string. *)
Definition basename (x : jsval) : option string :=
  match x with
  | Val (JStr p) => Some (basename_str p)
  | _ => None
  end.

(** The argument of one [notifier.notify] call. *)
Record notification : Type := {
  n_title : string;
  n_message : string
}.

Definition excludedTools : list string := ["AskUserQuestion"; "ExitPlanMode"].

(** [excludedTools.includes(toolName)] *)
Definition is_excluded (toolName : jsval) : bool :=
  match toolName with
  | Val (JStr t) => existsb (String.eqb t) excludedTools
  | _ => false
  end.

Definition show_tool (toolName : jsval) : string :=
  match toolName with
  | Val (JStr t) => t
  | Undefined => "undefined"
  | Val v => stringify v
  end.

Definition allow_payload : json :=
  JObj [("hookSpecificOutput",
         JObj [("hookEventName", JStr "PermissionRequest");
               ("decision", JObj [("behavior", JStr "allow")])])].

Definition allow_response : string := stringify allow_payload.

(** The body of the [try] block once [JSON.parse] has returned [request]:
    the returned string and the notifications sent, or [None] when an
    exception is thrown. *)
Definition handle_request (request : json) : option (string * list notification) :=
  match get_prop request "tool_name" with
  | None => None
  | Some toolName =>
      if is_excluded toolName then
        let cwd := match get_prop request "cwd" with Some v => v | None => Undefined end in
        let projectFolder :=
          if truthy cwd then basename cwd else Some "Unknown" in
        match projectFolder with
        | None => None
        | Some folder =>
            let title := folder ++ " - Input Required" in
            let message :=
              match toolName with
              | Val (JStr "AskUserQuestion") => "Claude is asking a question"
              | Val (JStr "ExitPlanMode") => "Plan ready for review"
              | _ => show_tool toolName ++ " needs approval"
              end in
            Some (EmptyString, [{| n_title := title; n_message := message |}])
        end
      else Some (allow_response, [])
  end.

Section Handler.

(** The runtime's [JSON.parse]; [None] is a [SyntaxError]. *)
Variable JSON_parse : string -> option json.

Definition handlePermissionRequest (jsonInput : string)
  : string * list notification :=
  match JSON_parse jsonInput with
  | None => (allow_response, [])
  | Some request =>
      match handle_request request with
      | Some out => out
      | None => (allow_response, [])
      end
  end.

End Handler.

End Permission.

(* ================================================================= *)
(** ** Hook 7: fs.readFileSync on settings.json *)

Module Settings.

Definition marker_command : string :=
  "node -e " ++ dq ++ "__RUNNER_PERMISSION_HOOK__" ++ dq.

(** [[{ hooks: [{ type: 'command', command: 'node -e "__RUNNER_PERMISSION_HOOK__"' }] }]] *)
Definition marker_entry : json :=
  JArr [JObj [("hooks", JArr [JObj [("type", JStr "command");
                                     ("command", JStr marker_command)]])]].

(** What the hook returns: the original bytes, or
    [JSON.stringify(v, null, 2)] (as a string or a Buffer, like the
    original result). *)
Inductive read_result : Type :=
| ReturnOriginal : read_result
| ReturnStringified : json -> read_result.

Definition is_settings_path (filePath : string) : bool :=
  let normalizedPath := Paths.backslash_to_slash filePath in
  includes normalizedPath ".claude/settings.json" ||
  includes normalizedPath ".claude\settings.json".

(** [target[k] = v] in strict-mode code (runner.js is an ES module):
    assigning to a property of a primitive throws a TypeError ([None]).
    On an array the property is set but is not an index, so
    [JSON.stringify] leaves it out: the serialised array is unchanged. *)
Definition set_prop (target : json) (k : string) (v : json) : option json :=
  match target with
  | JObj fields => Some (JObj (update k v fields))
  | JArr xs => Some (JArr xs)
  | JNull | JBool _ | JNum _ | JStr _ => None
  end.

Definition or_empty_object (v : jsval) : json :=
  match v with
  | Val x => if truthy v then x else JObj []
  | Undefined => JObj []
  end.

(** The mutations of the [try] block on the parsed [settings]; [None] is
    an exception (caught: the original bytes are returned). *)
Definition inject (settings : json) : option json :=
  match get_prop settings "hooks" with
  | None => None
  | Some hooks =>
      if negb (truthy (opt_prop (opt_prop hooks "PermissionRequest") "length")) then
        (* settings.hooks = settings.hooks || {} *)
        let h := or_empty_object hooks in
        match set_prop settings "hooks" h with
        | None => None
        | Some settings1 =>
            (* settings.hooks.PermissionRequest = [...]: the object [h] is
               mutated, and [settings1.hooks] is that same object *)
            match set_prop h "PermissionRequest" marker_entry with
            | None => None
            | Some h' => set_prop settings1 "hooks" h'
            end
        end
      else Some settings
  end.

Section Hook.

Variable JSON_parse : string -> option json.

Definition readFileSync_hook (filePath content : string) : read_result :=
  if negb (is_settings_path filePath) then ReturnOriginal
  else match JSON_parse content with
       | None => ReturnOriginal
       | Some settings =>
           match inject settings with
           | None => ReturnOriginal
           | Some settings' => ReturnStringified settings'
           end
       end.

(** The value the host obtains by parsing the returned content:
    [JSON.parse(JSON.stringify(v, null, 2))] is [v] for the values built
    from a parse result. *)
Definition parsed_output (content : string) (r : read_result) : option json :=
  match r with
  | ReturnOriginal => JSON_parse content
  | ReturnStringified v => Some v
  end.

End Hook.

End Settings.

(* ================================================================= *)
(** ** Hooks 4 and 5: process.kill and ChildProcess.prototype.kill *)

Module Kill.

(** What a real termination primitive does: return a value, or throw an
    error carrying [err.code]. *)
Inductive kill_outcome : Type :=
| KillReturns : jsval -> kill_outcome
| KillThrows : option string -> kill_outcome.

Inductive hook_result : Type :=
| Returns : jsval -> hook_result
| Rethrows : option string -> hook_result.

(** [execSync('taskkill /T /F /PID ' + pid)] *)
Inductive effect : Type :=
| Taskkill : Z -> effect.

Definition code_is (c : option string) (name : string) : bool :=
  match c with Some s => String.eqb s name | None => false end.

(** Success values of Node's primitives: [process.kill] returns [true];
    [ChildProcess.prototype.kill] returns [true] when the signal was
    delivered. *)
Definition node_process_kill_success : jsval := Val (JBool true).
Definition node_child_kill_success : jsval := Val (JBool true).

(** Hook 4.  [taskkill_throws] says whether the fallback's [execSync]
    throws; both branches return [undefined]. *)
Definition process_kill_hook (originalProcessKill : Z -> string -> kill_outcome)
  (taskkill_throws : bool) (pid : Z) (signal : string)
  : hook_result * list effect :=
  match originalProcessKill pid signal with
  | KillReturns v => (Returns v, [])
  | KillThrows c =>
      if code_is c "EPERM" then
        if taskkill_throws then (Returns Undefined, [Taskkill pid])
        else (Returns Undefined, [Taskkill pid])
      else if code_is c "ESRCH" then (Returns Undefined, [])
      else (Rethrows c, [])
  end.

(** Hook 5, called on a child whose [this.pid] is [pid] ([0] when the
    child has none: [if (this.pid)] is then false). *)
Definition child_kill_hook (originalChildProcessKill : string -> kill_outcome)
  (taskkill_throws : bool) (pid : Z) (signal : string)
  : hook_result * list effect :=
  match originalChildProcessKill signal with
  | KillReturns v => (Returns v, [])
  | KillThrows c =>
      if code_is c "EPERM" || code_is c "ESRCH" then
        let effects := if Z.eqb pid 0 then [] else [Taskkill pid] in
        if taskkill_throws then (Returns Undefined, effects)
        else (Returns Undefined, effects)
      else (Rethrows c, [])
  end.

End Kill.

(* ================================================================= *)
(** ** Synthetic subprocesses: EventEmitter and process.nextTick *)

Module Events.

(** Arguments passed to [emit]. *)
Inductive arg : Type :=
| AData : string -> arg
| ACode : Z -> arg.

Definition emitter := nat.

(** One [emitter.emit(name, ...args)] call. *)
Record emission : Type := {
  e_target : emitter;
  e_name : string;
  e_args : list arg
}.

(** A listener registered with [emitter.on(name, fn)]; [fn] records its
    calls in the delivery log under the listener's id. *)
Record listener : Type := {
  l_id : nat;
  l_target : emitter;
  l_name : string
}.

Record delivery : Type := {
  d_listener : nat;
  d_name : string;
  d_args : list arg
}.

(** The event-loop state: fresh identities, registered listeners, the
    [process.nextTick] queue (each callback is the list of emissions it
    performs) and the calls received by listeners so far. *)
Record world : Type := {
  next_id : nat;
  listeners : list listener;
  ticks : list (list emission);
  log : list delivery
}.

Definition matches (em : emission) (l : listener) : bool :=
  Nat.eqb (l_target l) (e_target em) && String.eqb (l_name l) (e_name em).

(** [emit]: every matching listener is called synchronously, in
    registration order. *)
Definition emit (w : world) (em : emission) : world :=
  {| next_id := next_id w; listeners := listeners w; ticks := ticks w;
     log := log w ++ map (fun l => {| d_listener := l_id l; d_name := e_name em;
                                     d_args := e_args em |})
                         (filter (matches em) (listeners w)) |}.

Definition on (w : world) (target : emitter) (name : string) : nat * world :=
  (next_id w,
   {| next_id := S (next_id w);
      listeners := listeners w ++ [{| l_id := next_id w; l_target := target;
                                     l_name := name |}];
      ticks := ticks w; log := log w |}).

Definition nextTick (w : world) (callback : list emission) : world :=
  {| next_id := next_id w; listeners := listeners w;
     ticks := ticks w ++ [callback]; log := log w |}.

(** Drain the nextTick queue, first in first out. *)
Definition run_ticks (w : world) : world :=
  let w' := fold_left (fun acc cb => fold_left emit cb acc) (ticks w)
                      {| next_id := next_id w; listeners := listeners w;
                         ticks := []; log := log w |} in
  w'.

Record fake_child : Type := {
  child : emitter;
  child_stdout : emitter;
  child_stderr : emitter;
  child_pid : Z
}.

Definition newline : string := String (ascii_of_nat 10) EmptyString.

(** [createBlockedChildProcess(reason)] *)
Definition createBlockedChildProcess (w : world) (reason : string)
  : fake_child * world :=
  let c := next_id w in
  let fc := {| child := c; child_stdout := S c; child_stderr := S (S c);
               child_pid := 0 |} in
  let w1 := {| next_id := S (S (S c)); listeners := listeners w;
               ticks := ticks w; log := log w |} in
  (fc, nextTick w1
         [{| e_target := S (S c); e_name := "data";
             e_args := [AData ("[blocked] " ++ reason ++ newline)] |};
          {| e_target := S c; e_name := "close"; e_args := [] |};
          {| e_target := S (S c); e_name := "close"; e_args := [] |};
          {| e_target := c; e_name := "close"; e_args := [ACode 1] |}]).

(** Every identity in the world is below [next_id]: listeners, the
    targets of queued emissions, and the listeners in the log. *)
Definition wf (w : world) : bool :=
  forallb (fun l => Nat.ltb (l_id l) (next_id w) && Nat.ltb (l_target l) (next_id w))
          (listeners w) &&
  forallb (fun cb => forallb (fun em => Nat.ltb (e_target em) (next_id w)) cb) (ticks w) &&
  forallb (fun x => Nat.ltb (d_listener x) (next_id w)) (log w).

End Events.

(* ================================================================= *)
(** ** The Tracked Subprocess Set ([childProcesses]) *)

Module Tracking.

Definition child_id := nat.

(** The operations that touch [childProcesses]. *)
Inductive op : Type :=
| SpawnReal : child_id -> Z -> op     (* spawnHook, real child with its pid *)
| SpawnSynthetic : child_id -> op     (* spawnHook returning a fake child *)
| ExitEvent : child_id -> op          (* the child's 'exit' listener *)
| ErrorEvent : child_id -> op         (* the child's 'error' listener *)
| KillChildren : op                   (* SIGBREAK handler *)
| CleanupAndExit : op                 (* SIGINT/SIGTERM/SIGHUP handler *)
| SupervisorRestart : op.             (* runWithAutoRestart loop turn *)

(** [Set.prototype.add] and [Set.prototype.delete] on a list without
    duplicates, in insertion order. *)
Definition set_add (c : child_id) (s : list child_id) : list child_id :=
  if existsb (Nat.eqb c) s then s else s ++ [c].
Definition set_delete (c : child_id) (s : list child_id) : list child_id :=
  filter (fun d => negb (Nat.eqb c d)) s.

(** [killChildren]: one taskkill per tracked child with a pid, then
    [childProcesses.clear()]. *)
Definition killChildren (s : list child_id) : list child_id := [].

Definition step (o : op) (s : list child_id) : list child_id :=
  match o with
  | SpawnReal c pid => if Z.eqb pid 0 then s else set_add c s
  | SpawnSynthetic _ => s
  | ExitEvent c | ErrorEvent c => set_delete c s
  | KillChildren | CleanupAndExit => killChildren s
  | SupervisorRestart => s
  end.

Definition run (ops : list op) (s : list child_id) : list child_id :=
  fold_left (fun acc o => step o acc) ops s.

(** The operations after which [c] is no longer in the set. *)
Definition removes (c : child_id) (o : op) : bool :=
  match o with
  | ExitEvent d | ErrorEvent d => Nat.eqb c d
  | KillChildren | CleanupAndExit => true
  | _ => false
  end.

(** The history of a tracked child: a real spawn with a pid, and no
    removing operation for it since. *)
Definition tracked_since (ops : list op) (c : child_id) : Prop :=
  exists pre pid post,
    ops = (pre ++ SpawnReal c pid :: post)%list /\ pid <> 0 /\
    forallb (fun o => negb (removes c o)) post = true.

End Tracking.

(* ================================================================= *)
(** ** The auto-restart supervisor *)

Module Supervisor.

Record config : Type := {
  MAX_CRASH_RESTARTS : Z;
  CRASH_WINDOW_MS : Z;
  MAX_NETWORK_RETRIES : Z;
  NETWORK_BACKOFF_BASE_MS : Z;
  NETWORK_BACKOFF_MAX_MS : Z
}.

Definition CONFIG : config := {|
  MAX_CRASH_RESTARTS := 3;
  CRASH_WINDOW_MS := 60000;
  MAX_NETWORK_RETRIES := 10;
  NETWORK_BACKOFF_BASE_MS := 5000;
  NETWORK_BACKOFF_MAX_MS := 60000
|}.

(** A thrown error: its [code] and [message] ([None] when absent). *)
Record error : Type := {
  err_code : option string;
  err_message : option string
}.

Definition networkErrorCodes : list string :=
  ["ENOTFOUND"; "ETIMEDOUT"; "ECONNREFUSED"; "ECONNRESET";
   "ENETUNREACH"; "EAI_AGAIN"; "EHOSTUNREACH"; "EPIPE"].

Definition networkErrorMessages : list string :=
  ["network"; "fetch failed"; "socket hang up"; "ENOTFOUND";
   "ETIMEDOUT"; "getaddrinfo"; "connect ECONNREFUSED"].

(** [isNetworkError(err)]; a falsy thrown value is [None]. *)
Definition isNetworkError (err : option error) : bool :=
  match err with
  | None => false
  | Some e =>
      let by_code :=
        match err_code e with
        | Some c => negb (String.eqb c EmptyString) && existsb (String.eqb c) networkErrorCodes
        | None => false
        end in
      if by_code then true
      else
        let message := lowercase (match err_message e with Some m => m | None => EmptyString end) in
        existsb (fun pattern => includes message (lowercase pattern)) networkErrorMessages
  end.

(** [calculateBackoff(attempt, baseMs, maxMs)] for [attempt >= 1]. *)
Definition calculateBackoff (attempt baseMs maxMs : Z) : Z :=
  Z.min (baseMs * 2 ^ (attempt - 1)) maxMs.

Record restart_state : Type := {
  crashRestartCount : Z;
  lastCrashTime : Z;
  networkRetryCount : Z
}.

Definition initial_state : restart_state :=
  {| crashRestartCount := 0; lastCrashTime := 0; networkRetryCount := 0 |}.

(** One evaluation of the host entry point ([await import(cliPath)]). *)
Inductive attempt : Type :=
| Completes : attempt
| Throws : option error -> attempt.

(** The environment of a run: the outcome of evaluating the entry point,
    the value of [Date.now()] in the [catch] of the k-th import, and the
    answer of the k-th DNS probe.  Every iteration imports the same
    specifier [file://${cliPath}]; the module loader evaluates a module
    once and settles every later import of it with the same result (a
    module whose evaluation threw rejects again with the same error), so
    one outcome serves all imports. *)
Record env : Type := {
  entry : attempt;
  clock : nat -> Z;
  probe : nat -> bool
}.

(** The [while] loop of [waitForConnectivity], from retry count [n] and
    probe index [p]: (connected, next probe index, final count, waits).
    [fuel] bounds the iterations; [MAX_NETWORK_RETRIES] of them suffice
    from [n = 0]. *)
Fixpoint wait_loop (cfg : config) (E : env) (fuel : nat) (p : nat) (n : Z)
  (waits : list Z) : bool * nat * Z * list Z :=
  match fuel with
  | O => (false, p, n, waits)
  | S fuel' =>
      if n <? MAX_NETWORK_RETRIES cfg then
        let n' := n + 1 in
        let backoffMs := calculateBackoff n' (NETWORK_BACKOFF_BASE_MS cfg)
                                          (NETWORK_BACKOFF_MAX_MS cfg) in
        if probe E p then (true, S p, 0, (waits ++ [backoffMs])%list)
        else wait_loop cfg E fuel' (S p) n' ((waits ++ [backoffMs])%list)
      else (false, p, n, waits)
  end.

(** [waitForConnectivity()]: resets [networkRetryCount], then loops. *)
Definition waitForConnectivity (cfg : config) (E : env) (p : nat)
  (st : restart_state) : bool * nat * restart_state :=
  match wait_loop cfg E (Z.to_nat (MAX_NETWORK_RETRIES cfg)) p 0 [] with
  | (connected, p', n, _) =>
      (connected, p',
       {| crashRestartCount := crashRestartCount st;
          lastCrashTime := lastCrashTime st; networkRetryCount := n |})
  end.

Inductive outcome : Type :=
| NormalExit : outcome
| ProcessExit : Z -> string -> outcome.   (* process.exit(code) after a diagnostic *)

(** [attempts] counts the imports performed; restarts are [attempts - 1]. *)
Inductive run_result : Type :=
| Stopped : outcome -> restart_state -> nat -> run_result
| OutOfFuel : restart_state -> nat -> run_result.

Definition network_diagnostic (cfg : config) : string :=
  "[wclaude] No internet after " ++ show_Z (MAX_NETWORK_RETRIES cfg) ++
  " retries. Stopping.".

Definition crash_diagnostic (cfg : config) : string :=
  "[wclaude] Crashed " ++ show_Z (MAX_CRASH_RESTARTS cfg) ++ " times in " ++
  show_Z (CRASH_WINDOW_MS cfg / 1000) ++ "s. Stopping.".

(** The generic-crash branch at time [now]: the new state, and whether
    the budget is exhausted. *)
Definition crash_branch (cfg : config) (now : Z) (st : restart_state)
  : restart_state * bool :=
  let count := if now - lastCrashTime st >? CRASH_WINDOW_MS cfg then 0
               else crashRestartCount st in
  let count' := count + 1 in
  ({| crashRestartCount := count'; lastCrashTime := now;
      networkRetryCount := networkRetryCount st |},
   count' >=? MAX_CRASH_RESTARTS cfg).

(** [runWithAutoRestart]: [k] imports done so far, [p] probes done. *)
Fixpoint runWithAutoRestart (cfg : config) (E : env) (fuel : nat) (k p : nat)
  (st : restart_state) : run_result :=
  match fuel with
  | O => OutOfFuel st k
  | S fuel' =>
      match entry E with
      | Completes => Stopped NormalExit st (S k)
      | Throws err =>
          let now := clock E k in
          if isNetworkError err then
            match waitForConnectivity cfg E p st with
            | (connected, p', st') =>
                if connected then runWithAutoRestart cfg E fuel' (S k) p' st'
                else Stopped (ProcessExit 1 (network_diagnostic cfg)) st' (S k)
            end
          else
            match crash_branch cfg now st with
            | (st', true) => Stopped (ProcessExit 1 (crash_diagnostic cfg)) st' (S k)
            | (st', false) => runWithAutoRestart cfg E fuel' (S k) p st'
            end
      end
  end.

End Supervisor.

(* ================================================================= *)
(** ** handleStopHook *)

Module StopHook.
Import Permission.

Section Handler.

Variable JSON_parse : string -> option json.

(** [projectFolder] starts as ['Claude Code'] and is replaced by
    [path.basename(request.cwd)] when [request.cwd] is truthy; a
    [SyntaxError], the TypeError of [null.cwd] and the one of
    [path.basename] on a non-string are caught and leave the default. *)
Definition handleStopHook (jsonInput : string) : string * list notification :=
  let projectFolder :=
    match JSON_parse jsonInput with
    | None => "Claude Code"
    | Some request =>
        match get_prop request "cwd" with
        | None => "Claude Code"
        | Some cwd =>
            if truthy cwd then
              match basename cwd with Some folder => folder | None => "Claude Code" end
            else "Claude Code"
        end
    end in
  (stringify (JObj []),
   [{| n_title := projectFolder ++ " - Task Complete";
       n_message := "Claude has finished the task" |}]).

End Handler.

End StopHook.

(* ================================================================= *)
(** ** setupGitPath and setupEnvironment *)

Module Setup.

(** [s.split(sep)] for a one-character separator: the pieces between
    separators, empty ones included ([''.split(';')] is [['']]). *)
Fixpoint split_on (sep : ascii) (s : string) : list string :=
  match s with
  | EmptyString => [EmptyString]
  | String c s' =>
      if Ascii.eqb c sep then EmptyString :: split_on sep s'
      else match split_on sep s' with
           | [] => [String c EmptyString]
           | x :: xs => String c x :: xs
           end
  end.

(** [xs.join(sep)] *)
Definition join (sep : ascii) (xs : list string) : string :=
  String.concat (String sep EmptyString) xs.

Definition programFilesGit : string := "C:\Program Files\Git\cmd".

Definition is_scoop_git (p : string) : bool :=
  includes (lowercase p) "scoop" && includes (lowercase p) "git".

(** The new [process.env.PATH] ([None]: unset); [programFilesGitExists]
    is [fs.existsSync(programFilesGit)]. *)
Definition setupGitPath (programFilesGitExists : bool) (PATH : option string)
  : option string :=
  if programFilesGitExists then
    let pathParts :=
      filter (fun p => negb (is_scoop_git p))
             (split_on ";" (match PATH with Some s => s | None => EmptyString end)) in
    Some (join ";" (programFilesGit :: pathParts))
  else PATH.

(** [String.prototype.trim] on ASCII whitespace. *)
Fixpoint trim_start (s : string) : string :=
  match s with
  | EmptyString => EmptyString
  | String c s' => if is_space c then trim_start s' else s
  end.

Fixpoint trim_end (s : string) : string :=
  match s with
  | EmptyString => EmptyString
  | String c s' =>
      let t := trim_end s' in
      if is_space c && String.eqb t EmptyString then EmptyString else String c t
  end.

Definition trim (s : string) : string := trim_end (trim_start s).

(** [Math.min(Math.floor(Math.floor(totalmem / 2^20) * 0.75), 32768)];
    [m * 0.75] is exact in a double for every [m] below [2^51], so its
    floor is [3m / 4]. *)
Definition heapSizeMB (totalmem : Z) : Z :=
  Z.min ((totalmem / (1024 * 1024)) * 3 / 4) 32768.

(** The [NODE_OPTIONS] part of [setupEnvironment]: the new value of
    [process.env.NODE_OPTIONS] ([None]: unset). *)
Definition setupEnvironment_NODE_OPTIONS (totalmem : Z) (NODE_OPTIONS : option string)
  : option string :=
  if match NODE_OPTIONS with
     | Some o => includes o "max-old-space-size"
     | None => false
     end
  then NODE_OPTIONS
  else Some (trim ((match NODE_OPTIONS with Some o => o | None => EmptyString end) ++
                   " --max-old-space-size=" ++ show_Z (heapSizeMB totalmem))).

End Setup.

(* ================================================================= *)
(** ** handleWslPath *)

Module Wsl.

(** One pattern character under the [i] flag, as [ichr] has it. *)
Definition eq_i (d c : ascii) : bool :=
  Ascii.eqb d c || Ascii.eqb d (to_lower c) || Ascii.eqb d (to_upper c).

(** A literal matched under the [i] flag at the front of [s]: what
    follows it. *)
Fixpoint prefix_i (p s : string) : option string :=
  match p, s with
  | EmptyString, _ => Some s
  | String d p', String c s' => if eq_i d c then prefix_i p' s' else None
  | String _ _, EmptyString => None
  end.

(** The greedy run of characters satisfying [p] at the front of [s]. *)
Fixpoint take_run (p : ascii -> bool) (s : string) : string * string :=
  match s with
  | EmptyString => (EmptyString, EmptyString)
  | String c s' =>
      if p c then let (run, rest) := take_run p s' in (String c run, rest)
      else (EmptyString, s)
  end.

(** [cwd.match(/^\\\\wsl(\$|\.localhost)\\([^\\]+)(. * )/i)] (the last group
    written here with spaces): groups 2 and 3.  The match is anchored;
    [[^\\]+] takes the longest run, after which the last group, a
    starred dot, always succeeds (up to the first line terminator), so no
    backtracking is needed. *)
Definition wslMatch (cwd : string) : option (string * string) :=
  match prefix_i "\\wsl" cwd with
  | None => None
  | Some r =>
      match match prefix_i "$" r with
            | Some r' => Some r'
            | None => prefix_i ".localhost" r
            end with
      | None => None
      | Some r' =>
          match prefix_i "\" r' with
          | None => None
          | Some r'' =>
              let (distro, rest) := take_run (fun c => negb (Ascii.eqb c "\"%char)) r'' in
              if String.eqb distro EmptyString then None
              else Some (distro, fst (take_run not_line_terminator rest))
          end
      end
  end.

(** [handleWslPath]: the arguments of [spawnSync('wsl', ...)] when the
    current directory is a WSL path (the launcher then exits with the
    child's status); [None] when it is not, or when [process.cwd()]
    throws ([cwd = None]). *)
Definition handleWslPath (cwd : option string) : option (list string) :=
  match cwd with
  | None => None
  | Some cwd =>
      match wslMatch cwd with
      | None => None
      | Some (distro, tail) =>
          let wslPath :=
            let p := Paths.backslash_to_slash tail in
            if String.eqb p EmptyString then "/" else p in
          Some ["-d"; distro; "--cd"; wslPath; "--"; "claude"]
      end
  end.

End Wsl.

(* ================================================================= *)
(** ** spawnHook: routing of a spawn call *)

Module Spawn.





End Spawn.

(* ================================================================= *)
(** ** createHookChildProcess *)

Module HookChild.
Import Events.

(** The fake child, its [stdin] emitter and the closure's [stdinData]. *)
Record hook_child : Type := {
  hc : fake_child;
  hc_stdin : emitter;
  stdinData : string
}.

(** [createHookChildProcess(handleFn)] with [child.pid = process.pid]:
    the child, then [stdin], [stdout] and [stderr] emitters. *)
Definition createHookChildProcess (w : world) (pid : Z) : hook_child * world :=
  let c := next_id w in
  ({| hc := {| child := c; child_stdout := S (S c); child_stderr := S (S (S c));
               child_pid := pid |};
      hc_stdin := S c; stdinData := EmptyString |},
   {| next_id := S (S (S (S c))); listeners := listeners w; ticks := ticks w;
      log := log w |}).

(** [if (chunk) stdinData += chunk.toString()]: a missing or empty chunk
    adds nothing. *)
Definition chunk_text (chunk : option string) : string :=
  match chunk with Some s => s | None => EmptyString end.

(** [child.stdin.write(chunk)] returns [true]. *)
Definition stdin_write (h : hook_child) (chunk : option string) : hook_child * bool :=
  ({| hc := hc h; hc_stdin := hc_stdin h; stdinData := stdinData h ++ chunk_text chunk |},
   true).

Fixpoint stdin_write_all (h : hook_child) (chunks : list (option string)) : hook_child :=
  match chunks with
  | [] => h
  | chunk :: chunks' => stdin_write_all (fst (stdin_write h chunk)) chunks'
  end.

(** [child.stdin.end(chunk)]: [handleFn] runs at once on all the data;
    its response is emitted on the next tick. *)
Definition stdin_end (handleFn : string -> string) (w : world) (h : hook_child)
  (chunk : option string) : hook_child * world :=
  let data := stdinData h ++ chunk_text chunk in
  let response := handleFn data in
  ({| hc := hc h; hc_stdin := hc_stdin h; stdinData := data |},
   nextTick w
     [{| e_target := child_stdout (hc h); e_name := "data"; e_args := [AData response] |};
      {| e_target := child_stdout (hc h); e_name := "close"; e_args := [] |};
      {| e_target := child_stderr (hc h); e_name := "close"; e_args := [] |};
      {| e_target := child (hc h); e_name := "close"; e_args := [ACode 0] |}]).

End HookChild.

(* ================================================================= *)
(** ** ASCII case folding of whole strings *)

Module CaseFold.
Import Regex.

Fixpoint uppercase (s : string) : string :=
  match s with
  | EmptyString => EmptyString
  | String c s' => String (to_upper c) (uppercase s')
  end.

(** Every class of [r] gives the same answer on [f c] as on [c]. *)
Fixpoint case_closed (f : ascii -> ascii) (r : regex) : Prop :=
  match r with
  | RNone | REps => True
  | RChr p => forall c, p (f c) = p c
  | RSeq r1 r2 | RAlt r1 r2 => case_closed f r1 /\ case_closed f r2
  | RStar r1 => case_closed f r1
  end.

End CaseFold.

(* ================================================================= *)
(** * Properties *)

(* ----------------------------------------------------------------- *)
(** ** Command validator *)

Module BlocklistFacts.
Import Blocklist.

Lemma count_char_empty (c : ascii) : count_char c EmptyString = 0%nat.
Proof. reflexivity. Qed.

Lemma odd_nonempty (command : string) :
  Nat.odd (count_char quote command) = true -> String.eqb command EmptyString = false.
Proof. destruct command; [discriminate | reflexivity]. Qed.

Lemma check_safety_in (rules : list safety_rule) (command x : string) :
  check_safety rules command = Some x -> In x (map sr_reason rules).
Proof.
  induction rules as [|r rules IH]; simpl; [discriminate|].
  destruct (safety_fires r command).
  - intros H; injection H as <-; now left.
  - intros H; right; exact (IH H).
Qed.

(** The first firing rule decides: a rule reached in order yields its own
    reason exactly when it fires. *)
Lemma check_safety_nth (rules : list safety_rule) (i : nat) (r : safety_rule)
  (command : string) :
  NoDup (map sr_reason rules) ->
  nth_error rules i = Some r ->
  (forall j r', (j < i)%nat -> nth_error rules j = Some r' ->
                safety_fires r' command = false) ->
  (check_safety rules command = Some (sr_reason r) <-> safety_fires r command = true).
Proof.
  revert i. induction rules as [|a rules IH]; intros i Hnd Hi Hbefore.
  - destruct i; discriminate.
  - simpl in Hnd. inversion Hnd as [|? ? Hnotin Hnd']; subst.
    destruct i as [|i]; simpl in Hi.
    + injection Hi as <-. simpl.
      destruct (safety_fires a command) eqn:Hf; split; intros H; auto.
      * exfalso. apply Hnotin. exact (check_safety_in _ _ _ H).
      * discriminate.
    + assert (Ha : safety_fires a command = false)
        by (apply (Hbefore 0%nat a); [lia | reflexivity]).
      simpl. rewrite Ha.
      apply (IH i Hnd' Hi).
      intros j r' Hj Hr'. apply (Hbefore (S j) r'); [lia | exact Hr'].
Qed.

Lemma safety_reasons_nodup : NoDup (map sr_reason safetyRules).
Proof.
  simpl. repeat constructor; simpl;
  intros H; repeat destruct H as [H|H]; try discriminate H; exact H.
Qed.

Lemma deny_inj (a b : string) : deny a = deny b <-> a = b.
Proof. split; [intros H; injection H; auto | intros ->; reflexivity]. Qed.

(** C3: an odd number of single quotes is denied as unbalanced before any
    pattern rule is looked at; an even number with the nested-quote shape
    is denied with the nested-quotes reason. *)
Theorem validateCommand_quote_checks (command : string) :
  (Nat.odd (count_char quote command) = true ->
   validateCommand command = deny unbalanced_reason) /\
  (Nat.odd (count_char quote command) = false ->
   test nested_quotes_re command = true ->
   validateCommand command =
     deny "Path contains nested quotes (cygpath crash risk) - use Read/Glob tools instead").
Proof.
  split.
  - intros Hodd. unfold validateCommand.
    rewrite (odd_nonempty _ Hodd), Hodd. reflexivity.
  - intros Heven Hnested. unfold validateCommand.
    destruct (String.eqb command EmptyString) eqn:He.
    + apply String.eqb_eq in He. subst command. discriminate Hnested.
    + rewrite Heven. simpl. rewrite Hnested. reflexivity.
Qed.

(** C4: once the quote, crash-pattern and path-length checks pass and the
    earlier hang rules do not fire, a hang rule denies (with its reason)
    exactly when its [detect] matches and its [unless] does not; on the
    spec's examples, [git log --all] is denied and [git log --all -n 50]
    allowed. *)
Theorem validateCommand_hang_rule (command : string) (i : nat) (rule : safety_rule) :
  (String.eqb command EmptyString = false ->
   Nat.odd (count_char quote command) = false ->
   check_cygpath cygpathRules command = None ->
   existsb (fun p => Nat.ltb maxPathLength (String.length p)) (path_matches command) = false ->
   nth_error safetyRules i = Some rule ->
   (forall j r', (j < i)%nat -> nth_error safetyRules j = Some r' ->
                 safety_fires r' command = false) ->
   (validateCommand command = deny (sr_reason rule) <->
    test (sr_detect rule) command = true /\ test (sr_unless rule) command = false)) /\
  validateCommand "git log --all" =
    deny "git --all without limit - add -n N or --max-count=N" /\
  validateCommand "git log --all -n 50" = allow.
Proof.
  split; [|split; reflexivity].
  intros Hne Hq Hc Hp Hi Hbefore.
  assert (Hfires : safety_fires rule command = true <->
                   test (sr_detect rule) command = true /\
                   test (sr_unless rule) command = false).
  { unfold safety_fires. rewrite andb_true_iff, negb_true_iff. tauto. }
  rewrite <- Hfires, <- (check_safety_nth _ _ _ _ safety_reasons_nodup Hi Hbefore).
  unfold validateCommand. rewrite Hne, Hq, Hc, Hp.
  destruct (check_safety safetyRules command) as [x|].
  - rewrite deny_inj. split; [intros ->; reflexivity | intros H; injection H; auto].
  - split; intros H; discriminate H.
Qed.

(** C3 at concrete commands: three quotes, then the nested-quote shape
    ['a'"b"'c'] with four. *)
Lemma validateCommand_quote_checks_witness :
  validateCommand "git log 'a' 'b" = deny unbalanced_reason /\
  validateCommand ("'a'" ++ dq ++ "b" ++ dq ++ "'c'") =
    deny "Path contains nested quotes (cygpath crash risk) - use Read/Glob tools instead".
Proof.
  split.
  - apply (proj1 (validateCommand_quote_checks "git log 'a' 'b")). reflexivity.
  - apply (proj2 (validateCommand_quote_checks ("'a'" ++ dq ++ "b" ++ dq ++ "'c'")));
      vm_compute; reflexivity.
Defined.

(** C4 at [git log --all] and the fourth hang rule: every guard holds. *)
Lemma validateCommand_hang_rule_witness :
  validateCommand "git log --all" =
    deny "git --all without limit - add -n N or --max-count=N" <->
  test git_detect "git log --all" = true /\ test git_unless "git log --all" = false.
Proof.
  apply (proj1 (validateCommand_hang_rule "git log --all" 3
           {| sr_name := "git-all-no-limit"; sr_detect := git_detect; sr_unless := git_unless;
              sr_reason := "git --all without limit - add -n N or --max-count=N" |}));
    try reflexivity.
  intros j r' Hj Hn.
  destruct j as [|[|[|j]]]; [| | | lia]; injection Hn as <-; vm_compute; reflexivity.
Defined.

End BlocklistFacts.

(* ----------------------------------------------------------------- *)
(** ** Path translator *)

Module PathFacts.
Import Paths.

Ltac ascii_cases c := destruct c as [[] [] [] [] [] [] [] []]; reflexivity.

Lemma to_lower_idem (c : ascii) : to_lower (to_lower c) = to_lower c.
Proof. ascii_cases c. Qed.

Lemma is_alpha_to_lower (c : ascii) : is_alpha (to_lower c) = is_alpha c.
Proof. ascii_cases c. Qed.

Lemma to_lower_backslash (c : ascii) :
  Ascii.eqb (to_lower c) "\"%char = Ascii.eqb c "\"%char.
Proof. ascii_cases c. Qed.

Lemma to_lower_fixed (c : ascii) : Ascii.eqb (to_lower c) c = negb (is_upper c).
Proof. ascii_cases c. Qed.

Lemma alpha_not_backslash (c : ascii) : is_alpha c = true -> Ascii.eqb c "\"%char = false.
Proof. destruct (Ascii.eqb_spec c "\"%char) as [->|]; [discriminate | reflexivity]. Qed.

Lemma b2s_cons (c : ascii) (s : string) :
  backslash_to_slash (String c s) =
  String (if Ascii.eqb c "\"%char then "/"%char else c) (backslash_to_slash s).
Proof. reflexivity. Qed.

Lemma count_char_cons (d c : ascii) (s : string) :
  count_char d (String c s) = ((if Ascii.eqb d c then 1 else 0) + count_char d s)%nat.
Proof. reflexivity. Qed.

Lemma b2s_app (a b : string) :
  backslash_to_slash (a ++ b) = backslash_to_slash a ++ backslash_to_slash b.
Proof.
  induction a as [|c a IH]; [reflexivity|].
  change ((String c a ++ b)%string) with (String c (a ++ b)).
  rewrite !b2s_cons, IH. reflexivity.
Qed.

Lemma b2s_no_backslash (s : string) :
  count_char "\"%char s = 0%nat -> backslash_to_slash s = s.
Proof.
  induction s as [|c s IH]; [reflexivity|].
  rewrite count_char_cons, b2s_cons, (Ascii.eqb_sym "\"%char c).
  destruct (Ascii.eqb c "\"%char); [intros H; discriminate H|].
  intros H. now rewrite IH.
Qed.

Lemma b2s_idem (s : string) : backslash_to_slash (backslash_to_slash s) = backslash_to_slash s.
Proof.
  induction s as [|c s IH]; [reflexivity|].
  rewrite !b2s_cons, IH.
  destruct (Ascii.eqb c "\"%char) eqn:Hc; [reflexivity|]. now rewrite Hc.
Qed.

Lemma b2s_cons_fixed (c : ascii) (s : string) :
  backslash_to_slash (String c s) = String c s ->
  Ascii.eqb c "\"%char = false /\ backslash_to_slash s = s.
Proof.
  rewrite b2s_cons. intros H. injection H as Hc Hs. split; [|exact Hs].
  destruct (Ascii.eqb c "\"%char) eqn:E; [|reflexivity].
  apply Ascii.eqb_eq in E. subst c. discriminate Hc.
Qed.

Lemma finish_rooted (x : ascii) (rest : string) :
  is_alpha x = true -> backslash_to_slash rest = rest ->
  let u := String "/" (String (to_lower x) rest) in
  backslash_to_slash u = u /\ finish u = u.
Proof.
  intros Hx Hr u. subst u. split.
  - rewrite !b2s_cons, to_lower_backslash, (alpha_not_backslash _ Hx), Hr. reflexivity.
  - unfold finish, drive_prefix, lower_after_root.
    replace (is_alpha "/"%char) with false by reflexivity.
    replace (Ascii.eqb "/"%char "/"%char) with true by reflexivity.
    cbn [andb]. rewrite is_alpha_to_lower, Hx, to_lower_idem. reflexivity.
Qed.

Lemma finish_cases (t : string) :
  backslash_to_slash t = t ->
  (exists x rest, is_alpha x = true /\ backslash_to_slash rest = rest /\
                  finish t = String "/" (String (to_lower x) rest)) \/
  (drive_prefix t = t /\ lower_after_root t = t).
Proof.
  intros Ht. destruct t as [|c [|d rest]]; try (right; split; reflexivity).
  apply b2s_cons_fixed in Ht as [Hc Ht].
  apply b2s_cons_fixed in Ht as [Hd Hr].
  unfold finish. cbn [drive_prefix].
  destruct (is_alpha c && Ascii.eqb d ":"%char) eqn:Hdrive.
  - apply andb_true_iff in Hdrive as [Ha _].
    left. exists c, rest. split; [exact Ha | split; [exact Hr |]].
    cbn [lower_after_root].
    replace (Ascii.eqb "/"%char "/"%char) with true by reflexivity.
    cbn [andb]. rewrite Ha. reflexivity.
  - cbn [lower_after_root].
    destruct (Ascii.eqb c "/"%char && is_alpha d) eqn:Hlow.
    + apply andb_true_iff in Hlow as [Hs Ha]. apply Ascii.eqb_eq in Hs. subst c.
      left. exists d, rest. auto.
    + right. split; reflexivity.
Qed.

Lemma finish_fixed (t : string) :
  backslash_to_slash t = t ->
  backslash_to_slash (finish t) = finish t /\ finish (finish t) = finish t.
Proof.
  intros Ht. destruct (finish_cases t Ht) as [(x & rest & Hx & Hr & ->) | [Hd Hl]].
  - exact (finish_rooted x rest Hx Hr).
  - assert (Hf : finish t = t) by (unfold finish; now rewrite Hd, Hl).
    rewrite Hf. split; assumption.
Qed.

(** C6: a drive path [L:\a\b] becomes [/l/a/b], and the translation is
    idempotent.  But the third [replace], [/^\/[A-Z]/i], has no anchor
    after the letter, so it also lowercases the first letter of a rooted
    POSIX path: an input with no backslash and no drive prefix is returned
    unchanged exactly when it does not start with [/] and an uppercase
    letter, and [/Users/johan] becomes [/users/johan]. *)
Theorem windowsToPosix_spec :
  (forall (l : ascii) (a b : string),
     is_alpha l = true -> count_char "\"%char a = 0%nat -> count_char "\"%char b = 0%nat ->
     windowsToPosix (String l (String ":" (String "\" (a ++ String "\" b)))) =
     String "/" (String (to_lower l) (String "/" (a ++ String "/" b)))) /\
  (forall s : string,
     count_char "\"%char s = 0%nat ->
     (forall l rest, s = String l (String ":" rest) -> is_alpha l = false) ->
     (windowsToPosix s = s <->
      forall l rest, s = String "/" (String l rest) -> is_upper l = false)) /\
  (forall s : string, windowsToPosix (windowsToPosix s) = windowsToPosix s) /\
  windowsToPosix "/Users/johan" = "/users/johan".
Proof.
  split; [|split; [|split]].
  - intros l a b Hl Ha Hb. unfold windowsToPosix.
    simpl backslash_to_slash. rewrite (alpha_not_backslash _ Hl), b2s_app.
    simpl backslash_to_slash. rewrite (b2s_no_backslash _ Ha), (b2s_no_backslash _ Hb).
    unfold drive_prefix. rewrite Hl. simpl. rewrite Hl. reflexivity.
  - intros s Hs Hnodrive. unfold windowsToPosix. rewrite (b2s_no_backslash _ Hs).
    assert (Hd : drive_prefix s = s).
    { destruct s as [|l [|c rest]]; try reflexivity. simpl.
      destruct (is_alpha l && Ascii.eqb c ":"%char) eqn:E; [|reflexivity].
      apply andb_true_iff in E as [El Ec]. apply Ascii.eqb_eq in Ec. subst c.
      rewrite (Hnodrive l rest eq_refl) in El. discriminate. }
    rewrite Hd. destruct s as [|c [|l rest]].
    + split; [intros _ l rest H; discriminate H | reflexivity].
    + split; [intros _ l rest H; discriminate H | reflexivity].
    + unfold lower_after_root.
      destruct (Ascii.eqb c "/"%char && is_alpha l) eqn:E.
      * apply andb_true_iff in E as [Ec El]. apply Ascii.eqb_eq in Ec. subst c.
        split.
        -- intros H l' rest' H'. injection H' as <- <-. injection H as Hl.
           pose proof (to_lower_fixed l) as F. rewrite Hl, Ascii.eqb_refl in F.
           destruct (is_upper l); [discriminate | reflexivity].
        -- intros H. specialize (H l rest eq_refl).
           pose proof (to_lower_fixed l) as F. rewrite H in F.
           apply Ascii.eqb_eq in F. now rewrite F.
      * split; [|reflexivity].
        intros _ l' rest' H'. injection H' as -> <- <-.
        rewrite Ascii.eqb_refl in E. simpl in E. unfold is_alpha in E.
        destruct (is_upper l); [discriminate | reflexivity].
  - intros s. unfold windowsToPosix. fold (finish (backslash_to_slash s)).
    destruct (finish_fixed (backslash_to_slash s) (b2s_idem s)) as [H1 H2].
    rewrite H1. exact H2.
  - vm_compute. reflexivity.
Qed.

End PathFacts.

(* ----------------------------------------------------------------- *)
(** ** Tracked Subprocess Set *)

Module TrackingFacts.
Import Tracking.

Lemma run_snoc (ops : list op) (o : op) (s : list child_id) :
  run (ops ++ [o]) s = step o (run ops s).
Proof. unfold run. now rewrite fold_left_app. Qed.

Lemma set_add_in (c d : child_id) (s : list child_id) :
  In c (set_add d s) <-> In c s \/ c = d.
Proof.
  unfold set_add. destruct (existsb (Nat.eqb d) s) eqn:E.
  - split; [now left|]. intros [H| ->]; [exact H|].
    apply existsb_exists in E as (x & Hx & Hdx). apply Nat.eqb_eq in Hdx. now subst.
  - rewrite in_app_iff. simpl. intuition.
Qed.

Lemma set_delete_in (c d : child_id) (s : list child_id) :
  In c (set_delete d s) <-> In c s /\ c <> d.
Proof.
  unfold set_delete. rewrite filter_In, negb_true_iff, Nat.eqb_neq. intuition.
Qed.

Lemma tracked_since_snoc (ops : list op) (o : op) (c : child_id) :
  tracked_since ops c -> removes c o = false -> tracked_since (ops ++ [o]) c.
Proof.
  intros (pre & pid & post & -> & Hpid & Hpost) Ho.
  exists pre, pid, (post ++ [o])%list. split; [|split; [exact Hpid|]].
  - now rewrite <- app_assoc.
  - rewrite forallb_app, Hpost. simpl. now rewrite Ho.
Qed.

(** C9 (amended): an entry leaves the set only through its own [exit] or
    [error] notification or through a teardown ([killChildren], which
    clears the whole set); every entry is a real child spawned with a pid
    that has had neither notification nor teardown since. *)
Theorem tracked_set_removal :
  (forall (o : op) (s : list child_id) (c : child_id),
     In c s -> ~ In c (step o s) -> removes c o = true) /\
  (forall (ops : list op) (c : child_id),
     In c (run ops []) -> tracked_since ops c).
Proof.
  split.
  - intros o s c Hin Hout.
    destruct o as [d pid|d|d|d| | |]; simpl in *; try reflexivity;
      try (exfalso; now apply Hout).
    + destruct (Z.eqb pid 0); [now exfalso|].
      exfalso. apply Hout. apply set_add_in. now left.
    + destruct (Nat.eqb_spec c d) as [|Hne]; [reflexivity|].
      exfalso. apply Hout. now apply set_delete_in.
    + destruct (Nat.eqb_spec c d) as [|Hne]; [reflexivity|].
      exfalso. apply Hout. now apply set_delete_in.
  - intros ops c. induction ops as [|o ops IH] using rev_ind; [intros []|].
    rewrite run_snoc. intros Hin.
    destruct o as [d pid|d|d|d| | |]; simpl in Hin.
    + destruct (Z.eqb pid 0) eqn:Hp.
      * apply tracked_since_snoc; [exact (IH Hin) | reflexivity].
      * apply set_add_in in Hin as [Hin| ->].
        -- apply tracked_since_snoc; [exact (IH Hin) | reflexivity].
        -- exists ops, pid, []. split; [reflexivity|].
           split; [now apply Z.eqb_neq | reflexivity].
    + apply tracked_since_snoc; [exact (IH Hin) | reflexivity].
    + apply set_delete_in in Hin as [Hin Hne].
      apply tracked_since_snoc; [exact (IH Hin)|]. simpl. now apply Nat.eqb_neq.
    + apply set_delete_in in Hin as [Hin Hne].
      apply tracked_since_snoc; [exact (IH Hin)|]. simpl. now apply Nat.eqb_neq.
    + destruct Hin.
    + destruct Hin.
    + apply tracked_since_snoc; [exact (IH Hin) | reflexivity].
Qed.

(** C9: the SIGBREAK teardown removes a child that has sent neither an
    [exit] nor an [error] notification. *)
Lemma tracked_set_eager_removal :
  In 1%nat (run [SpawnReal 1%nat 4242] []) /\
  ~ In 1%nat (step KillChildren (run [SpawnReal 1%nat 4242] [])).
Proof. split; [simpl; now left | simpl; intros []]. Qed.

End TrackingFacts.

(* ----------------------------------------------------------------- *)
(** ** Supervisor *)

Module SupervisorFacts.
Import Supervisor.

Lemma gtb_false (a b : Z) : a <= b -> (a >? b) = false.
Proof. intros H. rewrite Z.gtb_ltb. apply Z.ltb_ge. exact H. Qed.

(** C1: with crash budget 3 and window 60000 ms, an entry point that
    always throws the same non-network error within the window is run
    three times (two restarts); the third failure stops the process with
    status 1 and the crash diagnostic, the counter having reached 3. *)
Theorem generic_crash_budget (E : env) (e : option error) (fuel : nat) :
  entry E = Throws e ->
  isNetworkError e = false ->
  clock E 1 - clock E 0 <= CRASH_WINDOW_MS CONFIG ->
  clock E 2 - clock E 1 <= CRASH_WINDOW_MS CONFIG ->
  (3 <= fuel)%nat ->
  runWithAutoRestart CONFIG E fuel 0 0 initial_state =
  Stopped (ProcessExit 1 (crash_diagnostic CONFIG))
          {| crashRestartCount := 3; lastCrashTime := clock E 2;
             networkRetryCount := 0 |} 3.
Proof.
  intros He Hnet H1 H2 Hfuel.
  destruct fuel as [|[|[|fuel]]]; try lia.
  cbn [runWithAutoRestart]. rewrite He, Hnet.
  unfold crash_branch at 1. cbn [crashRestartCount lastCrashTime networkRetryCount initial_state].
  replace (if clock E 0 - 0 >? CRASH_WINDOW_MS CONFIG then 0 else 0) with 0
    by (destruct (_ >? _); reflexivity).
  cbn -[runWithAutoRestart crash_branch clock entry]. try rewrite He; try rewrite Hnet.
  unfold crash_branch at 1. cbn [crashRestartCount lastCrashTime networkRetryCount].
  rewrite (gtb_false _ _ H1).
  cbn -[runWithAutoRestart crash_branch clock entry]. try rewrite He; try rewrite Hnet.
  unfold crash_branch at 1. cbn [crashRestartCount lastCrashTime networkRetryCount].
  rewrite (gtb_false _ _ H2). reflexivity.
Qed.

Lemma wait_loop_connects (cfg : config) (E : env) :
  forall (f p : nat) (n : Z) (waits : list Z) (j : nat),
    (j < f)%nat -> n + Z.of_nat f = MAX_NETWORK_RETRIES cfg ->
    probe E (p + j) = true ->
    exists p' waits', wait_loop cfg E f p n waits = (true, p', 0, waits').
Proof.
  induction f as [|f IH]; intros p n waits j Hj Hn Hprobe; [lia|].
  cbn [wait_loop].
  replace (n <? MAX_NETWORK_RETRIES cfg) with true by (symmetry; apply Z.ltb_lt; lia).
  destruct (probe E p) eqn:Hp; [eauto|].
  destruct j as [|j]; [rewrite Nat.add_0_r in Hprobe; congruence|].
  apply (IH (S p) (n + 1) _ j); [lia | lia | now replace (S p + j)%nat with (p + S j)%nat by lia].
Qed.

Lemma waitForConnectivity_frame (cfg : config) (E : env) (p : nat)
  (st : restart_state) (connected : bool) (p' : nat) (st' : restart_state) :
  waitForConnectivity cfg E p st = (connected, p', st') ->
  crashRestartCount st' = crashRestartCount st /\ lastCrashTime st' = lastCrashTime st.
Proof.
  unfold waitForConnectivity.
  destruct (wait_loop _ _ _ _ _ _) as [[[c q] n] w].
  intros H. injection H as _ _ <-. split; reflexivity.
Qed.

Lemma waitForConnectivity_connects (E : env) (p : nat) (st : restart_state) :
  (forall p, exists j, (j < 10)%nat /\ probe E (p + j) = true) ->
  exists p', waitForConnectivity CONFIG E p st =
             (true, p', {| crashRestartCount := crashRestartCount st;
                           lastCrashTime := lastCrashTime st;
                           networkRetryCount := 0 |}).
Proof.
  intros Hprobe. destruct (Hprobe p) as (j & Hj & Hpj).
  destruct (wait_loop_connects CONFIG E 10 p 0 [] j Hj eq_refl Hpj) as (p' & w & Hw).
  exists p'. unfold waitForConnectivity.
  change (Z.to_nat (MAX_NETWORK_RETRIES CONFIG)) with 10%nat. rewrite Hw. reflexivity.
Qed.

Lemma network_loop_frame (E : env) (e : option error) :
  entry E = Throws e -> isNetworkError e = true ->
  forall fuel k p st0,
    (exists st, runWithAutoRestart CONFIG E fuel k p st0 = OutOfFuel st (k + fuel) /\
                crashRestartCount st = crashRestartCount st0 /\
                lastCrashTime st = lastCrashTime st0) \/
    (exists st k', runWithAutoRestart CONFIG E fuel k p st0 =
                   Stopped (ProcessExit 1 (network_diagnostic CONFIG)) st k' /\
                   crashRestartCount st = crashRestartCount st0 /\
                   lastCrashTime st = lastCrashTime st0).
Proof.
  intros He Hnet. induction fuel as [|fuel IH]; intros k p st0.
  - left. exists st0. rewrite Nat.add_0_r. split; [reflexivity | split; reflexivity].
  - cbn [runWithAutoRestart]. rewrite He, Hnet.
    destruct (waitForConnectivity CONFIG E p st0) as [[connected p'] st'] eqn:Hw.
    destruct (waitForConnectivity_frame _ _ _ _ _ _ _ Hw) as [Hc Hl].
    destruct connected.
    + destruct (IH (S k) p' st') as [(st & Hr & Hc' & Hl') | (st & k' & Hr & Hc' & Hl')].
      * left. exists st. rewrite Hr. replace (S k + fuel)%nat with (k + S fuel)%nat by lia.
        split; [reflexivity | split; congruence].
      * right. exists st, k'. split; [exact Hr | split; congruence].
    + right. exists st', (S k). split; [reflexivity | split; assumption].
Qed.

Lemma network_loop_forever (E : env) (e : option error) :
  entry E = Throws e -> isNetworkError e = true ->
  (forall p, exists j, (j < 10)%nat /\ probe E (p + j) = true) ->
  forall fuel k p st0,
    exists st, runWithAutoRestart CONFIG E fuel k p st0 = OutOfFuel st (k + fuel) /\
               crashRestartCount st = crashRestartCount st0 /\
               lastCrashTime st = lastCrashTime st0.
Proof.
  intros He Hnet Hprobe. induction fuel as [|fuel IH]; intros k p st0.
  - exists st0. rewrite Nat.add_0_r. split; [reflexivity | split; reflexivity].
  - cbn [runWithAutoRestart]. rewrite He, Hnet.
    destruct (waitForConnectivity_connects E p st0 Hprobe) as [p' ->].
    destruct (IH (S k) p' {| crashRestartCount := crashRestartCount st0;
                             lastCrashTime := lastCrashTime st0;
                             networkRetryCount := 0 |}) as (st & Hr & Hc & Hl).
    exists st. rewrite Hr. replace (S k + fuel)%nat with (k + S fuel)%nat by lia.
    split; [reflexivity | split; assumption].
Qed.

(** C2: the network branch never touches [crashRestartCount] or
    [lastCrashTime].  But a restart imports the same module again and
    gets the cached rejection, so an entry point whose evaluation failed
    with a network error never ends in success: from any state, with any
    fuel, the run either is still restarting or stops with status 1 and
    the no-internet diagnostic, the crash fields unchanged throughout.
    When connectivity always comes back within the 10 probes, it restarts
    forever. *)
Theorem network_failures_spare_crash_budget :
  (forall (cfg : config) (E : env) (p : nat) (st : restart_state)
          (connected : bool) (p' : nat) (st' : restart_state),
     waitForConnectivity cfg E p st = (connected, p', st') ->
     crashRestartCount st' = crashRestartCount st /\
     lastCrashTime st' = lastCrashTime st) /\
  (forall (E : env) (e : option error) (st0 : restart_state) (fuel : nat),
     entry E = Throws e -> isNetworkError e = true ->
     (forall st k, runWithAutoRestart CONFIG E fuel 0 0 st0 <> Stopped NormalExit st k) /\
     ((exists st, runWithAutoRestart CONFIG E fuel 0 0 st0 = OutOfFuel st fuel /\
                  crashRestartCount st = crashRestartCount st0 /\
                  lastCrashTime st = lastCrashTime st0) \/
      (exists st k, runWithAutoRestart CONFIG E fuel 0 0 st0 =
                    Stopped (ProcessExit 1 (network_diagnostic CONFIG)) st k /\
                    crashRestartCount st = crashRestartCount st0 /\
                    lastCrashTime st = lastCrashTime st0))) /\
  (forall (E : env) (e : option error) (st0 : restart_state) (fuel : nat),
     entry E = Throws e -> isNetworkError e = true ->
     (forall p, exists j, (j < 10)%nat /\ probe E (p + j) = true) ->
     exists st, runWithAutoRestart CONFIG E fuel 0 0 st0 = OutOfFuel st fuel /\
                crashRestartCount st = crashRestartCount st0 /\
                lastCrashTime st = lastCrashTime st0).
Proof.
  split; [exact waitForConnectivity_frame|]. split.
  - intros E e st0 fuel He Hnet.
    destruct (network_loop_frame E e He Hnet fuel 0 0 st0)
      as [(st & Hr & Hc & Hl) | (st & k & Hr & Hc & Hl)]; rewrite Hr.
    + split; [intros ? ? H; discriminate H|]. left. exists st. split; [reflexivity | split; assumption].
    + split; [intros ? ? H; discriminate H|]. right. exists st, k. split; [reflexivity | split; assumption].
  - intros E e st0 fuel He Hnet Hprobe.
    exact (network_loop_forever E e He Hnet Hprobe fuel 0 0 st0).
Qed.

(** C1 with a module-not-found style error and crashes one second apart. *)
Lemma generic_crash_budget_witness :
  runWithAutoRestart CONFIG
    {| entry := Throws (Some {| err_code := Some "ERR_MODULE_NOT_FOUND";
                                          err_message := Some "Cannot find module" |});
       clock := fun k => 1000 * Z.of_nat k; probe := fun _ => true |}
    3 0 0 initial_state =
  Stopped (ProcessExit 1 (crash_diagnostic CONFIG))
          {| crashRestartCount := 3; lastCrashTime := 2000; networkRetryCount := 0 |} 3.
Proof.
  apply (generic_crash_budget
    {| entry := Throws (Some {| err_code := Some "ERR_MODULE_NOT_FOUND";
                                          err_message := Some "Cannot find module" |});
       clock := fun k => 1000 * Z.of_nat k; probe := fun _ => true |}
    (Some {| err_code := Some "ERR_MODULE_NOT_FOUND"; err_message := Some "Cannot find module" |})
    3).
  - reflexivity.
  - vm_compute. reflexivity.
  - cbn. lia.
  - cbn. lia.
  - lia.
Defined.

(** C2 with an [ENOTFOUND] failure and the network back at every first
    probe: after 20 imports the run is still restarting, with the crash
    fields untouched. *)
Lemma network_failures_spare_crash_budget_witness :
  exists st,
    runWithAutoRestart CONFIG
      {| entry := Throws (Some {| err_code := Some "ENOTFOUND"; err_message := None |});
         clock := fun _ => 0; probe := fun _ => true |}
      20 0 0 initial_state = OutOfFuel st 20 /\
    crashRestartCount st = 0 /\ lastCrashTime st = 0.
Proof.
  apply (proj2 (proj2 network_failures_spare_crash_budget) _
           (Some {| err_code := Some "ENOTFOUND"; err_message := None |})).
  - reflexivity.
  - vm_compute. reflexivity.
  - intros p. exists 0%nat. split; [lia | reflexivity].
Defined.

End SupervisorFacts.

(* ----------------------------------------------------------------- *)
(** ** Termination hooks *)

Module KillFacts.
Import Kill.

(** C5: when the real primitive throws, [process.kill] recovers from
    [EPERM] (after one taskkill, whether or not it fails) and from
    [ESRCH], and rethrows any other error; [ChildProcess.prototype.kill]
    recovers from both codes (with a taskkill when the child has a pid)
    and rethrows the rest.  Every recovered call returns [undefined],
    which is not the primitives' success value [true]. *)
Theorem kill_hooks_recovered_value :
  (forall orig taskkill_throws pid signal,
     orig pid signal = KillThrows (Some "EPERM") ->
     process_kill_hook orig taskkill_throws pid signal = (Returns Undefined, [Taskkill pid])) /\
  (forall orig taskkill_throws pid signal,
     orig pid signal = KillThrows (Some "ESRCH") ->
     process_kill_hook orig taskkill_throws pid signal = (Returns Undefined, [])) /\
  (forall orig taskkill_throws pid signal c,
     orig pid signal = KillThrows c -> c <> Some "EPERM" -> c <> Some "ESRCH" ->
     process_kill_hook orig taskkill_throws pid signal = (Rethrows c, [])) /\
  (forall origc taskkill_throws pid signal c,
     origc signal = KillThrows c -> c = Some "EPERM" \/ c = Some "ESRCH" ->
     child_kill_hook origc taskkill_throws pid signal =
       (Returns Undefined, if Z.eqb pid 0 then [] else [Taskkill pid])) /\
  (forall origc taskkill_throws pid signal c,
     origc signal = KillThrows c -> c <> Some "EPERM" -> c <> Some "ESRCH" ->
     child_kill_hook origc taskkill_throws pid signal = (Rethrows c, [])) /\
  Undefined <> node_process_kill_success /\ Undefined <> node_child_kill_success.
Proof.
  assert (Hcode : forall c name, c <> Some name -> code_is c name = false).
  { intros [s|] name Hne; [|reflexivity]. simpl.
    destruct (String.eqb_spec s name); [congruence | reflexivity]. }
  split; [|split; [|split; [|split; [|split]]]].
  - intros orig tt pid signal H. unfold process_kill_hook. rewrite H.
    destruct tt; reflexivity.
  - intros orig tt pid signal H. unfold process_kill_hook. rewrite H. reflexivity.
  - intros orig tt pid signal c H H1 H2. unfold process_kill_hook. rewrite H.
    rewrite (Hcode _ _ H1), (Hcode _ _ H2). reflexivity.
  - intros origc tt pid signal c H Hc. unfold child_kill_hook. rewrite H.
    destruct Hc as [-> | ->]; destruct tt; reflexivity.
  - intros origc tt pid signal c H H1 H2. unfold child_kill_hook. rewrite H.
    rewrite (Hcode _ _ H1), (Hcode _ _ H2). reflexivity.
  - split; discriminate.
Qed.

End KillFacts.

(* ----------------------------------------------------------------- *)
(** ** Permission hook *)

Module PermissionFacts.
Import Permission.

Lemma is_excluded_In (t : string) :
  is_excluded (Val (JStr t)) = true <-> In t excludedTools.
Proof.
  unfold is_excluded. rewrite existsb_exists. split.
  - intros (x & Hx & He). apply String.eqb_eq in He. now subst.
  - intros H. exists t. split; [exact H | apply String.eqb_refl].
Qed.

(** C7 (amended): a parse failure, a request whose [tool_name] is not an
    excluded tool, and an excluded-tool request whose [cwd] is truthy but
    not a string (where [path.basename] throws) all get the allow payload,
    which has no [ok] field; an excluded-tool request whose [cwd] is
    absent, falsy or a string gets the empty string and one notification. *)
Theorem permission_hook_decisions (JSON_parse : string -> option json) (input : string) :
  (JSON_parse input = None ->
   handlePermissionRequest JSON_parse input = (allow_response, [])) /\
  (forall fields t,
     JSON_parse input = Some (JObj fields) ->
     lookup "tool_name" fields = Some (JStr t) -> In t excludedTools ->
     (forall v, lookup "cwd" fields = Some v -> truthy (Val v) = true ->
                exists p, v = JStr p) ->
     fst (handlePermissionRequest JSON_parse input) = EmptyString /\
     List.length (snd (handlePermissionRequest JSON_parse input)) = 1%nat) /\
  (forall fields t v,
     JSON_parse input = Some (JObj fields) ->
     lookup "tool_name" fields = Some (JStr t) -> In t excludedTools ->
     lookup "cwd" fields = Some v -> truthy (Val v) = true -> (forall p, v <> JStr p) ->
     handlePermissionRequest JSON_parse input = (allow_response, [])) /\
  (forall request,
     JSON_parse input = Some request ->
     (forall t, get_prop request "tool_name" = Some (Val (JStr t)) -> ~ In t excludedTools) ->
     handlePermissionRequest JSON_parse input = (allow_response, [])) /\
  has_key "ok" allow_payload = false.
Proof.
  split; [|split; [|split; [|split]]].
  - intros H. unfold handlePermissionRequest. now rewrite H.
  - intros fields t H Ht Hin Hcwd. unfold handlePermissionRequest. rewrite H.
    unfold handle_request. cbn [get_prop]. rewrite Ht.
    apply is_excluded_In in Hin. rewrite Hin.
    destruct (lookup "cwd" fields) as [v|] eqn:Hc.
    + destruct (truthy (Val v)) eqn:Htv.
      * destruct (Hcwd v eq_refl Htv) as [p ->]. simpl. split; reflexivity.
      * simpl. split; reflexivity.
    + simpl. split; reflexivity.
  - intros fields t v H Ht Hin Hc Htv Hns. unfold handlePermissionRequest. rewrite H.
    unfold handle_request. cbn [get_prop]. rewrite Ht.
    apply is_excluded_In in Hin. rewrite Hin, Hc, Htv.
    destruct v; try reflexivity. exfalso. eapply Hns. reflexivity.
  - intros request H Hnot. unfold handlePermissionRequest. rewrite H.
    unfold handle_request.
    destruct (get_prop request "tool_name") as [tn|] eqn:Htn; [|reflexivity].
    destruct (is_excluded tn) eqn:Hex; [|reflexivity].
    exfalso. destruct tn as [|[| | |t| |]]; try discriminate Hex.
    apply (Hnot t eq_refl). now apply is_excluded_In.
  - reflexivity.
Qed.

(** C7: the request [{"tool_name":"AskUserQuestion","cwd":5}] names an
    excluded tool, yet [path.basename(5)] throws and the handler answers
    with the allow payload and sends no notification. *)
Lemma permission_hook_nonstring_cwd :
  handlePermissionRequest
    (parse_only (JObj [("tool_name", JStr "AskUserQuestion"); ("cwd", JNum 5)]))
    (stringify (JObj [("tool_name", JStr "AskUserQuestion"); ("cwd", JNum 5)])) =
  (allow_response, []).
Proof. vm_compute. reflexivity. Qed.

(** C7 at an [AskUserQuestion] request with a string [cwd]. *)
Lemma permission_hook_decisions_witness :
  fst (handlePermissionRequest
         (parse_only (JObj [("tool_name", JStr "AskUserQuestion"); ("cwd", JStr "C:\work\app")]))
         (stringify (JObj [("tool_name", JStr "AskUserQuestion"); ("cwd", JStr "C:\work\app")])))
    = EmptyString /\
  List.length (snd (handlePermissionRequest
         (parse_only (JObj [("tool_name", JStr "AskUserQuestion"); ("cwd", JStr "C:\work\app")]))
         (stringify (JObj [("tool_name", JStr "AskUserQuestion"); ("cwd", JStr "C:\work\app")]))))
    = 1%nat.
Proof.
  apply (proj1 (proj2 (permission_hook_decisions
    (parse_only (JObj [("tool_name", JStr "AskUserQuestion"); ("cwd", JStr "C:\work\app")]))
    (stringify (JObj [("tool_name", JStr "AskUserQuestion"); ("cwd", JStr "C:\work\app")]))))
    [("tool_name", JStr "AskUserQuestion"); ("cwd", JStr "C:\work\app")] "AskUserQuestion").
  - vm_compute. reflexivity.
  - reflexivity.
  - now left.
  - intros v Hv _. injection Hv as <-. now exists "C:\work\app".
Defined.

End PermissionFacts.

(* ----------------------------------------------------------------- *)
(** ** Blocked synthetic subprocess *)

Module EventsFacts.
Import Events.

Definition delivery_of (em : emission) (l : listener) : delivery :=
  {| d_listener := l_id l; d_name := e_name em; d_args := e_args em |}.

Lemma emit_listeners (w : world) (em : emission) : listeners (emit w em) = listeners w.
Proof. reflexivity. Qed.

Lemma emit_log (w : world) (em : emission) :
  log (emit w em) = (log w ++ map (delivery_of em) (filter (matches em) (listeners w)))%list.
Proof. reflexivity. Qed.

Lemma filter_deliveries_nil (P : delivery -> bool) (em : emission) (ls : list listener) :
  (forall l, In l ls -> matches em l = true -> P (delivery_of em l) = false) ->
  filter P (map (delivery_of em) (filter (matches em) ls)) = [].
Proof.
  induction ls as [|l ls IH]; intros H; [reflexivity|]. simpl.
  destruct (matches em l) eqn:Hm; simpl.
  - rewrite (H l (or_introl eq_refl) Hm). apply IH.
    intros l' Hin. apply H. now right.
  - apply IH. intros l' Hin. apply H. now right.
Qed.

(** A callback whose emissions reach no listener seen by [P] leaves the
    part of the log seen by [P] as it was. *)
Lemma fold_emit_unseen (P : delivery -> bool) (cb : list emission) :
  forall w,
    (forall em l, In em cb -> In l (listeners w) -> matches em l = true ->
                  P (delivery_of em l) = false) ->
    filter P (log (fold_left emit cb w)) = filter P (log w) /\
    listeners (fold_left emit cb w) = listeners w.
Proof.
  induction cb as [|em cb IH]; intros w H; [split; reflexivity|]. simpl.
  destruct (IH (emit w em)) as [IH1 IH2].
  { intros em' l Hem Hl. apply H; [now right | exact Hl]. }
  rewrite IH1, IH2, emit_log, filter_app, filter_deliveries_nil, app_nil_r.
  - split; reflexivity.
  - intros l Hl. apply H; [now left | exact Hl].
Qed.

Lemma fold_ticks_unseen (P : delivery -> bool) (cbs : list (list emission)) :
  forall w,
    (forall cb em l, In cb cbs -> In em cb -> In l (listeners w) ->
                     matches em l = true -> P (delivery_of em l) = false) ->
    filter P (log (fold_left (fun acc cb => fold_left emit cb acc) cbs w)) = filter P (log w) /\
    listeners (fold_left (fun acc cb => fold_left emit cb acc) cbs w) = listeners w.
Proof.
  induction cbs as [|cb cbs IH]; intros w H; [split; reflexivity|]. simpl.
  destruct (fold_emit_unseen P cb w) as [H1 H2].
  { intros em l Hem Hl. apply (H cb); [now left | exact Hem | exact Hl]. }
  destruct (IH (fold_left emit cb w)) as [IH1 IH2].
  { rewrite H2. intros cb' em l Hcb. apply (H cb'). now right. }
  rewrite IH1, IH2, H1, H2. split; reflexivity.
Qed.

Lemma wf_spec (w : world) :
  wf w = true ->
  (forall l, In l (listeners w) -> l_id l < next_id w /\ l_target l < next_id w)%nat /\
  (forall cb em, In cb (ticks w) -> In em cb -> e_target em < next_id w)%nat /\
  (forall x, In x (log w) -> d_listener x < next_id w)%nat.
Proof.
  unfold wf. rewrite !andb_true_iff, !forallb_forall.
  intros [[Hl Ht] Hd]. split; [|split].
  - intros l Hin. specialize (Hl l Hin). apply andb_true_iff in Hl as [H1 H2].
    apply Nat.ltb_lt in H1, H2. now split.
  - intros cb em Hcb Hem. specialize (Ht cb Hcb). rewrite forallb_forall in Ht.
    now apply Nat.ltb_lt, Ht.
  - intros x Hx. now apply Nat.ltb_lt, Hd.
Qed.

Lemma filter_none {A : Type} (P : A -> bool) (xs : list A) :
  (forall x, In x xs -> P x = false) -> filter P xs = [].
Proof.
  induction xs as [|x xs IH]; intros H; [reflexivity|]. simpl.
  rewrite (H x (or_introl eq_refl)). apply IH. intros; apply H; now right.
Qed.

Ltac decide_nat_eqb :=
  repeat match goal with
         | |- context [Nat.eqb ?a ?b] =>
             let E := fresh "E" in
             destruct (Nat.eqb_spec a b) as [E|E]; try (exfalso; lia)
         end.

(** C8: creating a blocked child emits nothing (the log is unchanged);
    a listener attached afterwards to its [stderr] [data] event and one
    attached to the child's [close] event, once the nextTick queue has
    run, have received exactly one [data] call carrying the reason, then
    one [close] call with exit code 1. *)
Theorem blocked_child_events (w : world) (reason : string) :
  wf w = true ->
  log (snd (createBlockedChildProcess w reason)) = log w /\
  (forall fc w1 d w2 cl w3,
     createBlockedChildProcess w reason = (fc, w1) ->
     on w1 (child_stderr fc) "data" = (d, w2) ->
     on w2 (child fc) "close" = (cl, w3) ->
     filter (fun x => Nat.eqb (d_listener x) d || Nat.eqb (d_listener x) cl)
            (log (run_ticks w3)) =
     [{| d_listener := d; d_name := "data";
         d_args := [AData ("[blocked] " ++ reason ++ newline)] |};
      {| d_listener := cl; d_name := "close"; d_args := [ACode 1] |}]).
Proof.
  intros Hwf. apply wf_spec in Hwf as (Hl & Ht & Hd).
  split; [reflexivity|].
  intros fc w1 d w2 cl w3 Hc Hd1 Hd2.
  unfold createBlockedChildProcess in Hc. injection Hc as <- <-.
  unfold on in Hd1, Hd2. cbn in Hd1, Hd2.
  injection Hd1 as <- <-. injection Hd2 as <- <-.
  set (n := next_id w) in *.
  set (P := fun x : delivery =>
              Nat.eqb (d_listener x) (S (S (S n))) || Nat.eqb (d_listener x) (S (S (S (S n))))).
  set (L1 := {| l_id := S (S (S n)); l_target := S (S n); l_name := "data" |}).
  set (L2 := {| l_id := S (S (S (S n))); l_target := n; l_name := "close" |}).
  assert (Hold : forall em l, In l (listeners w) -> P (delivery_of em l) = false).
  { intros em l Hin. destruct (Hl l Hin) as [Hid _]. unfold P, delivery_of. cbn.
    decide_nat_eqb. reflexivity. }
  assert (Hkill : forall em,
             filter P (map (delivery_of em) (filter (matches em) (listeners w))) = []).
  { intros em. apply filter_deliveries_nil. intros l Hin _. now apply Hold. }
  assert (Hlog0 : filter P (log w) = []).
  { apply filter_none. intros x Hx. specialize (Hd x Hx). unfold P.
    decide_nat_eqb. reflexivity. }
  unfold run_ticks, nextTick. cbn [ticks listeners log next_id].
  rewrite fold_left_app. cbn [fold_left].
  destruct (fold_ticks_unseen P (ticks w)
              {| next_id := S (S (S (S (S n))));
                 listeners := ((listeners w ++ [L1]) ++ [L2])%list;
                 ticks := []; log := log w |}) as [H1 H2].
  { cbn [listeners]. intros cb em l Hcb Hem Hin Hm.
    specialize (Ht cb em Hcb Hem). rewrite <- app_assoc in Hin.
    apply in_app_or in Hin as [Hin | [<- | [<- | []]]].
    - now apply Hold.
    - unfold matches in Hm. apply andb_true_iff in Hm as [Hm _].
      apply Nat.eqb_eq in Hm. unfold L1, L2 in Hm. cbn [l_target] in Hm. lia.
    - unfold matches in Hm. apply andb_true_iff in Hm as [Hm _].
      apply Nat.eqb_eq in Hm. unfold L1, L2 in Hm. cbn [l_target] in Hm. lia. }
  revert H1 H2.
  generalize (fold_left (fun acc cb => fold_left emit cb acc) (ticks w)
               {| next_id := S (S (S (S (S n))));
                  listeners := ((listeners w ++ [L1]) ++ [L2])%list;
                  ticks := []; log := log w |}).
  intros w' H1 H2. cbn [log listeners] in H1, H2.
  rewrite !emit_log, !emit_listeners, H2, !filter_app, H1, Hlog0.
  rewrite !map_app, !filter_app, !Hkill.
  unfold L1, L2, P, delivery_of, matches.
  do 3 (cbn -[Nat.eqb]; decide_nat_eqb). reflexivity.
Qed.

(** C8 from the empty world, where the two listeners get ids 3 and 4. *)
Lemma blocked_child_events_witness :
  log (snd (createBlockedChildProcess (Build_world 0 [] [] []) "dir /s")) = [] /\
  filter (fun x => Nat.eqb (d_listener x) 3%nat || Nat.eqb (d_listener x) 4%nat)
    (log (run_ticks
       (snd (on (snd (on (snd (createBlockedChildProcess (Build_world 0 [] [] []) "dir /s"))
                         2%nat "data"))
                0%nat "close")))) =
  [{| d_listener := 3%nat; d_name := "data"; d_args := [AData ("[blocked] dir /s" ++ newline)] |};
   {| d_listener := 4%nat; d_name := "close"; d_args := [ACode 1] |}].
Proof.
  split.
  - exact (proj1 (blocked_child_events (Build_world 0 [] [] []) "dir /s" eq_refl)).
  - eapply (proj2 (blocked_child_events (Build_world 0 [] [] []) "dir /s" eq_refl));
      reflexivity.
Defined.

End EventsFacts.

(* ----------------------------------------------------------------- *)
(** ** Settings injection *)

Module SettingsFacts.
Import Settings.

Lemma lookup_update (k k' : string) (v : json) (fields : list (string * json)) :
  lookup k (update k' v fields) = if String.eqb k k' then Some v else lookup k fields.
Proof.
  induction fields as [|[k0 v0] fields IH]; cbn [update lookup].
  - destruct (String.eqb k k'); reflexivity.
  - destruct (String.eqb_spec k' k0) as [<-|Hne]; cbn [lookup].
    + destruct (String.eqb k k'); reflexivity.
    + destruct (String.eqb_spec k k0) as [->|Hk].
      * destruct (String.eqb_spec k0 k'); [congruence | reflexivity].
      * exact IH.
Qed.

Lemma lookup_update_other (k k' : string) (v : json) (fields : list (string * json)) :
  k <> k' -> lookup k (update k' v fields) = lookup k fields.
Proof.
  intros Hne. rewrite lookup_update. destruct (String.eqb_spec k k'); [congruence | reflexivity].
Qed.

Lemma lookup_update_same (k : string) (v : json) (fields : list (string * json)) :
  lookup k (update k v fields) = Some v.
Proof. rewrite lookup_update, String.eqb_refl. reflexivity. Qed.

Lemma update_lookup (k : string) (v : json) (fields : list (string * json)) :
  lookup k fields = Some v -> update k v fields = fields.
Proof.
  induction fields as [|[k0 v0] fields IH]; cbn [lookup update]; [discriminate|].
  destruct (String.eqb_spec k k0) as [->|Hne].
  - intros H. injection H as ->. reflexivity.
  - intros H. now rewrite IH.
Qed.

(** C10 (amended): on a settings path whose content parses to an object
    [S], the host reads back [S] when [S.hooks?.PermissionRequest?.length]
    is truthy; otherwise, when [S.hooks] is absent, falsy or an object,
    [hooks.PermissionRequest] becomes the marker entry (replacing whatever
    was there) and every other field of [S] and of [hooks] keeps its
    value; when [S.hooks] is an array, [S] is read back unchanged; when it
    is another truthy value, the original bytes are returned.  An array
    document is read back unchanged; [null], a primitive document,
    unparseable content and any other path give the original bytes. *)
Theorem settings_read_injection (JSON_parse : string -> option json)
  (filePath content : string) :
  (is_settings_path filePath = false ->
   readFileSync_hook JSON_parse filePath content = ReturnOriginal) /\
  (JSON_parse content = None ->
   readFileSync_hook JSON_parse filePath content = ReturnOriginal) /\
  (forall fields : list (string * json),
     is_settings_path filePath = true -> JSON_parse content = Some (JObj fields) ->
     let hooks := match lookup "hooks" fields with Some h => Val h | None => Undefined end in
     (truthy (opt_prop (opt_prop hooks "PermissionRequest") "length") = true ->
      parsed_output JSON_parse content (readFileSync_hook JSON_parse filePath content) =
        Some (JObj fields)) /\
     (forall hf : list (string * json),
        truthy (opt_prop (opt_prop hooks "PermissionRequest") "length") = false ->
        (truthy hooks = false /\ hf = [] \/ hooks = Val (JObj hf)) ->
        exists fields' hf',
          parsed_output JSON_parse content (readFileSync_hook JSON_parse filePath content) =
            Some (JObj fields') /\
          lookup "hooks" fields' = Some (JObj hf') /\
          lookup "PermissionRequest" hf' = Some marker_entry /\
          (forall k, k <> "hooks" -> lookup k fields' = lookup k fields) /\
          (forall k, k <> "PermissionRequest" -> lookup k hf' = lookup k hf)) /\
     (forall xs, hooks = Val (JArr xs) ->
      parsed_output JSON_parse content (readFileSync_hook JSON_parse filePath content) =
        Some (JObj fields)) /\
     (truthy hooks = true -> (forall hf, hooks <> Val (JObj hf)) ->
      (forall xs, hooks <> Val (JArr xs)) ->
      readFileSync_hook JSON_parse filePath content = ReturnOriginal)) /\
  (forall xs : list json,
     is_settings_path filePath = true -> JSON_parse content = Some (JArr xs) ->
     parsed_output JSON_parse content (readFileSync_hook JSON_parse filePath content) =
       Some (JArr xs)) /\
  (forall v : json,
     is_settings_path filePath = true -> JSON_parse content = Some v ->
     (forall fs, v <> JObj fs) -> (forall xs, v <> JArr xs) ->
     readFileSync_hook JSON_parse filePath content = ReturnOriginal).
Proof.
  unfold readFileSync_hook, parsed_output.
  split; [|split; [|split; [|split]]].
  - intros H. now rewrite H.
  - intros H. destruct (negb (is_settings_path filePath)); [reflexivity|]. now rewrite H.
  - intros fields Hp Hc.
    set (hooks := match lookup "hooks" fields with Some h => Val h | None => Undefined end).
    rewrite Hp, Hc. cbn [negb].
    unfold inject. cbn [get_prop].
    change (match lookup "hooks" fields with Some x => Val x | None => Undefined end)
      with hooks.
    split; [|split; [|split]].
    + intros Ht. rewrite Ht. reflexivity.
    + intros hf Ht Hh. rewrite Ht. cbn [negb].
      destruct Hh as [[Hf ->] | Hh].
      * assert (Ho : or_empty_object hooks = JObj []).
        { unfold or_empty_object. destruct hooks; [reflexivity|]. now rewrite Hf. }
        rewrite Ho. cbn [set_prop].
        eexists _, _. split; [reflexivity|].
        split; [apply lookup_update_same|].
        split; [reflexivity|].
        split.
        -- intros k Hk. now rewrite !lookup_update_other.
        -- intros k Hk. now apply lookup_update_other.
      * rewrite Hh. cbn [or_empty_object truthy set_prop].
        eexists _, _. split; [reflexivity|].
        split; [apply lookup_update_same|].
        split; [apply lookup_update_same|].
        split.
        -- intros k Hk. now rewrite !lookup_update_other.
        -- intros k Hk. now apply lookup_update_other.
    + intros xs Hh. rewrite Hh. cbn [opt_prop get_prop truthy negb or_empty_object set_prop].
      assert (Hl : lookup "hooks" fields = Some (JArr xs)).
      { unfold hooks in Hh. destruct (lookup "hooks" fields); [congruence | discriminate Hh]. }
      rewrite !(update_lookup _ _ _ Hl). reflexivity.
    + intros Ht Hno Hna. unfold or_empty_object. rewrite Ht.
      destruct hooks as [|v]; [discriminate Ht|].
      destruct v as [| b | z | s | xs | hf].
      * discriminate Ht.
      * destruct b; [reflexivity | discriminate Ht].
      * cbn [opt_prop get_prop truthy]. reflexivity.
      * cbn [opt_prop get_prop].
        destruct (String.eqb_spec "PermissionRequest" "length") as [E|_]; [discriminate E|].
        reflexivity.
      * exfalso. now apply (Hna xs).
      * exfalso. now apply (Hno hf).
  - intros xs Hp Hc. rewrite Hp, Hc. reflexivity.
  - intros v Hp Hc Hno Hna. rewrite Hp, Hc. cbn [negb].
    destruct v as [| b | z | s | xs | fs]; try reflexivity.
    + exfalso. now apply (Hna xs).
    + exfalso. now apply (Hno fs).
Qed.

(** C10: a [hooks.PermissionRequest] holding a non-empty object is
    replaced by the marker entry; and with [hooks: true] no entry is
    injected although [PermissionRequest] is absent. *)
Lemma settings_read_overwrites_object_entry :
  readFileSync_hook
    (parse_only (JObj [("hooks", JObj [("PermissionRequest", JObj [("x", JNum 1)])])]))
    "/home/johan/.claude/settings.json"
    (stringify (JObj [("hooks", JObj [("PermissionRequest", JObj [("x", JNum 1)])])])) =
  ReturnStringified (JObj [("hooks", JObj [("PermissionRequest", marker_entry)])]) /\
  marker_entry <> JObj [("x", JNum 1)] /\
  readFileSync_hook (parse_only (JObj [("hooks", JBool true)]))
    "/home/johan/.claude/settings.json" (stringify (JObj [("hooks", JBool true)])) =
  ReturnOriginal.
Proof. split; [vm_compute; reflexivity | split; [discriminate | vm_compute; reflexivity]]. Qed.

(** C10 on a settings file with no [hooks] field. *)
Lemma settings_read_injection_witness :
  exists fields' hf',
    parsed_output (parse_only (JObj [("theme", JStr "dark")]))
      (stringify (JObj [("theme", JStr "dark")]))
      (readFileSync_hook (parse_only (JObj [("theme", JStr "dark")]))
         "C:/Users/johan/.claude/settings.json" (stringify (JObj [("theme", JStr "dark")]))) =
      Some (JObj fields') /\
    lookup "hooks" fields' = Some (JObj hf') /\
    lookup "PermissionRequest" hf' = Some marker_entry /\
    (forall k, k <> "hooks" -> lookup k fields' = lookup k [("theme", JStr "dark")]) /\
    (forall k, k <> "PermissionRequest" -> lookup k hf' = lookup k []).
Proof.
  apply (proj1 (proj2 (proj1 (proj2 (proj2 (settings_read_injection
           (parse_only (JObj [("theme", JStr "dark")]))
           "C:/Users/johan/.claude/settings.json"
           (stringify (JObj [("theme", JStr "dark")])))))
           [("theme", JStr "dark")] eq_refl eq_refl))).
  - reflexivity.
  - left. split; reflexivity.
Defined.

End SettingsFacts.

(* ----------------------------------------------------------------- *)
(** ** Further properties of the runner *)

Module StringFacts.

Lemma lowercase_app (a b : string) : lowercase (a ++ b) = lowercase a ++ lowercase b.
Proof. induction a as [|c a IH]; simpl; [reflexivity | now rewrite IH]. Qed.

Lemma prefix_app (n b : string) : String.prefix n (n ++ b) = true.
Proof.
  induction n as [|c n IH]; [destruct b; reflexivity|]. simpl.
  destruct (ascii_dec c c) as [_|Hne]; [exact IH | now exfalso].
Qed.

Lemma includes_prefix (h n : string) : String.prefix n h = true -> includes h n = true.
Proof. intros H. destruct h; cbn [includes]; rewrite H; reflexivity. Qed.

Lemma includes_app_mid (a n b : string) : includes (a ++ n ++ b) n = true.
Proof.
  induction a as [|c a IH].
  - apply includes_prefix. exact (prefix_app n b).
  - simpl. rewrite IH, orb_true_r. reflexivity.
Qed.

Lemma str_app_nil_r (s : string) : s ++ EmptyString = s.
Proof. induction s as [|c s IH]; simpl; [reflexivity | now rewrite IH]. Qed.

Lemma str_app_assoc (a b c : string) : (a ++ b) ++ c = a ++ b ++ c.
Proof. induction a as [|x a IH]; simpl; [reflexivity | now rewrite IH]. Qed.

End StringFacts.

Module SupervisorMoreFacts.
Import Supervisor.

(** [calculateBackoff] grows with the attempt number and never exceeds
    [maxMs]. *)
Theorem calculateBackoff_monotone_capped (a b baseMs maxMs : Z) :
  0 <= baseMs -> 1 <= a <= b ->
  calculateBackoff a baseMs maxMs <= calculateBackoff b baseMs maxMs <= maxMs.
Proof.
  intros Hb Hab. unfold calculateBackoff. split; [|apply Z.le_min_r].
  apply Z.min_le_compat_r, Z.mul_le_mono_nonneg_l; [exact Hb|].
  apply Z.pow_le_mono_r; lia.
Qed.

Lemma calculateBackoff_monotone_capped_witness :
  (0 <= 5000 /\ 1 <= 2 <= 7) /\
  calculateBackoff 2 5000 60000 <= calculateBackoff 7 5000 60000 <= 60000.
Proof.
  split; [lia|]. apply calculateBackoff_monotone_capped; lia.
Defined.

Lemma wait_loop_fails (cfg : config) (E : env) :
  forall (f p : nat) (n : Z) (waits : list Z),
    n + Z.of_nat f <= MAX_NETWORK_RETRIES cfg ->
    (forall j, (j < f)%nat -> probe E (p + j) = false) ->
    wait_loop cfg E f p n waits =
    (false, (p + f)%nat, n + Z.of_nat f,
     (waits ++ map (fun i => calculateBackoff (n + Z.of_nat i) (NETWORK_BACKOFF_BASE_MS cfg)
                                              (NETWORK_BACKOFF_MAX_MS cfg))
                   (List.seq 1 f))%list).
Proof.
  induction f as [|f IH]; intros p n waits Hn Hp.
  - cbn. rewrite Nat.add_0_r, Z.add_0_r, app_nil_r. reflexivity.
  - cbn [wait_loop].
    replace (n <? MAX_NETWORK_RETRIES cfg) with true by (symmetry; apply Z.ltb_lt; lia).
    replace (probe E p) with false
      by (symmetry; rewrite <- (Nat.add_0_r p); apply Hp; lia).
    rewrite IH; [| lia |].
    2: { intros j Hj. replace (S p + j)%nat with (p + S j)%nat by lia. apply Hp. lia. }
    cbn [List.seq map]. rewrite <- (seq_shift f 1), map_map, <- app_assoc.
    f_equal; [f_equal; [f_equal; lia | lia]|].
    f_equal. cbn [app]. f_equal.
    apply map_ext. intros i. f_equal. lia.
Qed.

(** When no DNS probe succeeds, [waitForConnectivity] waits 5, 10, 20 and
    40 s, then 60 s six times (435 s in all), and reports failure after
    10 probes with [networkRetryCount] at 10; a network error met then
    stops the supervisor with status 1 after a single import. *)
Theorem no_connectivity_gives_up (E : env) (e : option error) (fuel p0 : nat) :
  (forall j, (j < 10)%nat -> probe E (p0 + j) = false) ->
  wait_loop CONFIG E 10 p0 0 [] =
    (false, (p0 + 10)%nat, 10,
     [5000; 10000; 20000; 40000; 60000; 60000; 60000; 60000; 60000; 60000]) /\
  (entry E = Throws e -> isNetworkError e = true -> (1 <= fuel)%nat ->
   runWithAutoRestart CONFIG E fuel 0 p0 initial_state =
   Stopped (ProcessExit 1 "[wclaude] No internet after 10 retries. Stopping.")
           {| crashRestartCount := 0; lastCrashTime := 0; networkRetryCount := 10 |} 1).
Proof.
  intros Hp.
  assert (Hw : wait_loop CONFIG E 10 p0 0 [] =
    (false, (p0 + 10)%nat, 10,
     [5000; 10000; 20000; 40000; 60000; 60000; 60000; 60000; 60000; 60000])).
  { rewrite wait_loop_fails; [reflexivity | cbn; lia | exact Hp]. }
  split; [exact Hw|].
  intros He Hnet Hf. destruct fuel as [|fuel]; [lia|].
  cbn [runWithAutoRestart]. rewrite He, Hnet.
  unfold waitForConnectivity.
  change (Z.to_nat (MAX_NETWORK_RETRIES CONFIG)) with 10%nat. rewrite Hw.
  reflexivity.
Qed.

Lemma no_connectivity_gives_up_witness :
  let E := {| entry := Throws (Some {| err_code := Some "ENOTFOUND"; err_message := None |});
              clock := fun _ => 0; probe := fun _ => false |} in
  runWithAutoRestart CONFIG E 5 0 0 initial_state =
  Stopped (ProcessExit 1 "[wclaude] No internet after 10 retries. Stopping.")
          {| crashRestartCount := 0; lastCrashTime := 0; networkRetryCount := 10 |} 1.
Proof.
  intros E.
  apply (proj2 (no_connectivity_gives_up E
                  (Some {| err_code := Some "ENOTFOUND"; err_message := None |}) 5 0
                  (fun j _ => eq_refl)));
    [reflexivity | reflexivity | lia].
Defined.

Lemma slow_crash_loop_aux (E : env) (e : option error) :
  entry E = Throws e -> isNetworkError e = false ->
  (forall k, clock E (S k) - clock E k > CRASH_WINDOW_MS CONFIG) ->
  forall fuel k p st,
    (crashRestartCount st = 0 \/
     exists k', k = S k' /\ lastCrashTime st = clock E k' /\ crashRestartCount st = 1) ->
    exists st', runWithAutoRestart CONFIG E fuel k p st = OutOfFuel st' (k + fuel) /\
                crashRestartCount st' <= 1.
Proof.
  intros He Hnet Hgap. induction fuel as [|fuel IH]; intros k p st Hst.
  - exists st. rewrite Nat.add_0_r. split; [reflexivity|].
    destruct Hst as [-> | (k' & _ & _ & ->)]; lia.
  - cbn [runWithAutoRestart]. rewrite He, Hnet.
    unfold crash_branch.
    assert (Hc : (if clock E k - lastCrashTime st >? CRASH_WINDOW_MS CONFIG then 0
                  else crashRestartCount st) = 0).
    { destruct Hst as [-> | (k' & -> & -> & _)]; [now destruct (_ >? _)|].
      specialize (Hgap k'). replace (_ >? _) with true; [reflexivity|].
      symmetry. apply Z.gtb_lt. lia. }
    rewrite Hc. cbn -[runWithAutoRestart].
    replace (k + S fuel)%nat with (S k + fuel)%nat by lia.
    apply IH. right. exists k. auto.
Qed.

(** An entry point that keeps throwing a non-network error, with more
    than [CRASH_WINDOW_MS] (60 s) between consecutive crashes, is
    restarted for as long as the supervisor runs: every crash resets the
    counter, which never exceeds 1, and no run stops. *)
Theorem slow_crash_loop_never_stops (E : env) (e : option error) :
  entry E = Throws e -> isNetworkError e = false ->
  (forall k, clock E (S k) - clock E k > CRASH_WINDOW_MS CONFIG) ->
  forall fuel, exists st,
    runWithAutoRestart CONFIG E fuel 0 0 initial_state = OutOfFuel st fuel /\
    crashRestartCount st <= 1.
Proof.
  intros He Hnet Hgap fuel.
  apply (slow_crash_loop_aux E e He Hnet Hgap fuel 0 0 initial_state). now left.
Qed.

Lemma slow_crash_loop_never_stops_witness :
  exists st,
    runWithAutoRestart CONFIG
      {| entry := Throws (Some {| err_code := None; err_message := Some "boom" |});
         clock := fun k => 61000 * Z.of_nat k; probe := fun _ => true |}
      20 0 0 initial_state = OutOfFuel st 20 /\ crashRestartCount st <= 1.
Proof.
  apply (slow_crash_loop_never_stops _ (Some {| err_code := None; err_message := Some "boom" |})).
  - reflexivity.
  - reflexivity.
  - intros k. cbn [clock CONFIG CRASH_WINDOW_MS]. lia.
Defined.

End SupervisorMoreFacts.

Module NetworkFacts.
Import Supervisor StringFacts.

(** [isNetworkError] says yes for every listed code whatever the message,
    and for every message containing one of the listed patterns in any
    ASCII letter case; a falsy error, and an error with neither code nor
    message, are not network errors. *)
Theorem isNetworkError_classification :
  (forall (c : string) (m : option string),
     In c networkErrorCodes ->
     isNetworkError (Some {| err_code := Some c; err_message := m |}) = true) /\
  (forall (c : option string) (a q b pattern : string),
     In pattern networkErrorMessages -> lowercase q = lowercase pattern ->
     isNetworkError (Some {| err_code := c; err_message := Some (a ++ q ++ b) |}) = true) /\
  isNetworkError None = false /\
  isNetworkError (Some {| err_code := None; err_message := None |}) = false.
Proof.
  split; [|split; [|split; reflexivity]].
  - intros c m Hc. unfold networkErrorCodes in Hc.
    repeat (destruct Hc as [<-|Hc]; [reflexivity|]). destruct Hc.
  - intros c a q b pattern Hp Hq. unfold isNetworkError.
    match goal with |- (if ?b then _ else _) = _ => destruct b; [reflexivity|] end.
    apply existsb_exists. exists pattern. cbn [err_message]. split; [exact Hp|].
    rewrite !lowercase_app, Hq. apply includes_app_mid.
Qed.

End NetworkFacts.

Module InjectFacts.
Import Settings SettingsFacts.

(** Injection is idempotent: settings the hook has already rewritten come
    back unchanged from a second pass, so writing them back to disk does
    not make the hook add or change anything on the next read. *)
Theorem inject_idempotent (S S' : json) :
  inject S = Some S' -> inject S' = Some S'.
Proof.
  destruct S as [| | | |xs|fields]; cbn; try discriminate.
  - intros H; injection H as <-. reflexivity.
  - destruct (lookup "hooks" fields) as [hv|] eqn:Hl.
    + destruct (truthy (opt_prop (opt_prop (Val hv) "PermissionRequest") "length")) eqn:Ht;
        cbn.
      * intros H; injection H as <-. cbn. rewrite Hl, Ht. reflexivity.
      * destruct hv as [|b|n|s|ys|hf]; cbn; try discriminate.
        -- intros H; injection H as <-. cbn.
           rewrite !lookup_update_same. reflexivity.
        -- destruct b; cbn; try discriminate.
           intros H; injection H as <-. cbn. repeat (rewrite lookup_update_same; cbn). reflexivity.
        -- destruct (Z.eqb n 0); cbn; try discriminate.
           intros H; injection H as <-. cbn. repeat (rewrite lookup_update_same; cbn). reflexivity.
        -- destruct (String.eqb s EmptyString); cbn; try discriminate.
           intros H; injection H as <-. cbn. repeat (rewrite lookup_update_same; cbn). reflexivity.
        -- intros H; injection H as <-. cbn. rewrite !lookup_update_same. cbn.
           rewrite !(update_lookup "hooks" (JArr ys) fields Hl). reflexivity.
        -- intros H; injection H as <-. cbn. repeat (rewrite lookup_update_same; cbn). reflexivity.
    + cbn. intros H; injection H as <-. cbn. repeat (rewrite lookup_update_same; cbn). reflexivity.
Qed.

Lemma inject_idempotent_witness :
  inject (JObj [("model", JStr "opus")]) =
    Some (JObj [("model", JStr "opus"); ("hooks", JObj [("PermissionRequest", marker_entry)])]) /\
  inject (JObj [("model", JStr "opus"); ("hooks", JObj [("PermissionRequest", marker_entry)])]) =
    Some (JObj [("model", JStr "opus"); ("hooks", JObj [("PermissionRequest", marker_entry)])]).
Proof.
  split; [reflexivity|]. apply inject_idempotent with (S := JObj [("model", JStr "opus")]).
  reflexivity.
Defined.

End InjectFacts.

Module StopHookFacts.
Import Permission StopHook.

(** [handleStopHook] always answers ["{}"] and sends exactly one
    notification, "Claude has finished the task".  Its title is the
    basename of [cwd] followed by " - Task Complete" when the input parses
    to an object whose [cwd] is a non-empty string; in every other case
    (unparseable input, [null], no [cwd], an empty or non-string [cwd]) it
    is "Claude Code - Task Complete". *)
Theorem handleStopHook_notification (JSON_parse : string -> option json) (input : string) :
  fst (handleStopHook JSON_parse input) = "{}" /\
  (forall fields p,
     JSON_parse input = Some (JObj fields) -> lookup "cwd" fields = Some (JStr p) ->
     p <> EmptyString ->
     snd (handleStopHook JSON_parse input) =
       [{| n_title := basename_str p ++ " - Task Complete";
           n_message := "Claude has finished the task" |}]) /\
  ((forall fields p,
      JSON_parse input = Some (JObj fields) -> lookup "cwd" fields = Some (JStr p) ->
      p = EmptyString) ->
   snd (handleStopHook JSON_parse input) =
     [{| n_title := "Claude Code - Task Complete";
         n_message := "Claude has finished the task" |}]).
Proof.
  split; [reflexivity|split].
  - intros fields p Hp Hcwd Hne. unfold handleStopHook. rewrite Hp. cbn [get_prop].
    rewrite Hcwd. cbn [truthy basename].
    destruct (String.eqb_spec p EmptyString) as [He|_]; [contradiction|reflexivity].
  - intros Hstr. unfold handleStopHook.
    destruct (JSON_parse input) as [request|] eqn:Hp; [|reflexivity].
    destruct request as [|b|n|s|xs|fields]; cbn [get_prop]; try reflexivity.
    destruct (lookup "cwd" fields) as [cwd|] eqn:Hcwd; [|reflexivity].
    destruct cwd as [|b|n|s|xs|fs]; cbn [truthy basename];
      try (destruct b); try (destruct (Z.eqb n 0)); try reflexivity.
    rewrite (Hstr fields s eq_refl Hcwd). reflexivity.
Qed.

End StopHookFacts.

Module ValidationFacts.
Import Regex Blocklist BlocklistFacts.

Lemma check_cygpath_in (rules : list cygpath_rule) (command x : string) :
  check_cygpath rules command = Some x -> In x (map cr_reason rules).
Proof.
  induction rules as [|r rules IH]; simpl; [discriminate|].
  destruct (test (cr_pattern r) command).
  - intros H; injection H as <-; now left.
  - intros H; right; exact (IH H).
Qed.

(** Every result of [validateCommand] is either [{allowed: true}] with no
    reason or [{allowed: false}] with a reason, and that reason is one of
    the nine fixed messages of the validator. *)
Theorem validateCommand_result_shape (command : string) :
  (allowed (validateCommand command) = true <-> reason (validateCommand command) = None) /\
  (forall r, reason (validateCommand command) = Some r ->
     In r (unbalanced_reason :: map cr_reason cygpathRules ++
           path_length_reason :: map sr_reason safetyRules)).
Proof.
  unfold validateCommand.
  destruct (String.eqb command EmptyString).
  { split; [split; reflexivity | discriminate]. }
  destruct (Nat.odd (count_char quote command)).
  { split; [split; discriminate|]. intros r H; injection H as <-. now left. }
  destruct (check_cygpath cygpathRules command) as [x|] eqn:Hc.
  { split; [split; discriminate|]. intros r H; injection H as <-.
    right. apply in_or_app. left. exact (check_cygpath_in _ _ _ Hc). }
  destruct (existsb _ _).
  { split; [split; discriminate|]. intros r H; injection H as <-.
    right. apply in_or_app. right. now left. }
  destruct (check_safety safetyRules command) as [x|] eqn:Hs.
  { split; [split; discriminate|]. intros r H; injection H as <-.
    right. apply in_or_app. right. right. exact (check_safety_in _ _ _ Hs). }
  split; [split; reflexivity | discriminate].
Qed.

End ValidationFacts.

Module CaseFoldFacts.
Import Regex Blocklist CaseFold.

Ltac chars c := destruct c as [[] [] [] [] [] [] [] []]; reflexivity.

Lemma lower_of_upper (c : ascii) : to_lower (to_upper c) = to_lower c.
Proof. chars c. Qed.

Lemma upper_of_upper (c : ascii) : to_upper (to_upper c) = to_upper c.
Proof. chars c. Qed.

Lemma lower_of_lower (c : ascii) : to_lower (to_lower c) = to_lower c.
Proof. chars c. Qed.

Lemma upper_of_lower (c : ascii) : to_upper (to_lower c) = to_upper c.
Proof. chars c. Qed.

Lemma case_variant (c : ascii) : Ascii.eqb c (to_lower c) || Ascii.eqb c (to_upper c) = true.
Proof. chars c. Qed.

Lemma line_terminator_lower (c : ascii) : not_line_terminator (to_lower c) = not_line_terminator c.
Proof. chars c. Qed.

Lemma line_terminator_upper (c : ascii) : not_line_terminator (to_upper c) = not_line_terminator c.
Proof. chars c. Qed.

Section Fold.

(** [f] keeps the case variants of a character and its line-terminator
    status. *)
Variable f : ascii -> ascii.
Hypothesis f_lower : forall c, to_lower (f c) = to_lower c.
Hypothesis f_upper : forall c, to_upper (f c) = to_upper c.
Hypothesis f_line : forall c, not_line_terminator (f c) = not_line_terminator c.

Lemma ichr_closed_pred (p : ascii -> bool) (c : ascii) :
  p c || p (to_lower c) || p (to_upper c) = p (to_lower c) || p (to_upper c).
Proof.
  pose proof (case_variant c) as H. apply orb_true_iff in H as [H|H];
    apply Ascii.eqb_eq in H;
    [replace (p c) with (p (to_lower c)) by (now rewrite <- H)
    |replace (p c) with (p (to_upper c)) by (now rewrite <- H)];
    destruct (p (to_lower c)), (p (to_upper c)); reflexivity.
Qed.

Lemma ichr_closed (p : ascii -> bool) : case_closed f (ichr p).
Proof.
  intros c. rewrite !ichr_closed_pred, f_lower, f_upper. reflexivity.
Qed.

Lemma nichr_closed (p : ascii -> bool) : case_closed f (nichr p).
Proof.
  intros c. f_equal. rewrite !ichr_closed_pred, f_lower, f_upper. reflexivity.
Qed.

Lemma dot_closed : case_closed f dot.
Proof. intros c. apply f_line. Qed.

Lemma lit_i_closed (s : string) : case_closed f (lit_i s).
Proof.
  induction s as [|d s IH]; cbn [lit_i case_closed]; [exact I|].
  split; [apply ichr_closed | exact IH].
Qed.

Lemma seqs_closed (rs : list regex) : Forall (case_closed f) rs -> case_closed f (seqs rs).
Proof.
  induction 1 as [|r rs Hr Hrs IH]; [exact I|].
  destruct rs; [exact Hr | split; assumption].
Qed.

Lemma alts_closed (rs : list regex) : Forall (case_closed f) rs -> case_closed f (alts rs).
Proof.
  induction 1 as [|r rs Hr Hrs IH]; [exact I|].
  destruct rs; [exact Hr | split; assumption].
Qed.

Lemma plus_closed (r : regex) : case_closed f r -> case_closed f (plus r).
Proof. intros H. split; exact H. Qed.

Lemma seq_closed (r1 r2 : regex) :
  case_closed f r1 -> case_closed f r2 -> case_closed f (Regex.seq r1 r2).
Proof. intros H1 H2. destruct r1, r2; cbn [Regex.seq case_closed] in *; tauto. Qed.

Lemma alt_closed (r1 r2 : regex) :
  case_closed f r1 -> case_closed f r2 -> case_closed f (alt r1 r2).
Proof. intros H1 H2. destruct r1, r2; cbn [alt case_closed] in *; tauto. Qed.

Lemma deriv_closed (r : regex) (c : ascii) :
  case_closed f r -> deriv (f c) r = deriv c r /\ case_closed f (deriv c r).
Proof.
  induction r as [| |p|r1 IH1 r2 IH2|r1 IH1 r2 IH2|r1 IH1]; cbn [case_closed deriv].
  - split; [reflexivity | exact I].
  - split; [reflexivity | exact I].
  - intros H. rewrite H. split; [reflexivity|]. destruct (p c); exact I.
  - intros [H1 H2]. destruct (IH1 H1) as [E1 C1], (IH2 H2) as [E2 C2]. rewrite E1, E2.
    split; [reflexivity|].
    apply alt_closed; [now apply seq_closed|].
    destruct (nullable r1); [exact C2 | exact I].
  - intros [H1 H2]. destruct (IH1 H1) as [E1 C1], (IH2 H2) as [E2 C2]. rewrite E1, E2.
    split; [reflexivity|]. now apply alt_closed.
  - intros H. destruct (IH1 H) as [E1 C1]. rewrite E1.
    split; [reflexivity|]. now apply seq_closed.
Qed.

Variable g : string -> string.
Hypothesis g_nil : g EmptyString = EmptyString.
Hypothesis g_cons : forall c s, g (String c s) = String (f c) (g s).

Lemma search_fold (r0 : regex) (s : string) :
  case_closed f r0 ->
  forall cur, case_closed f cur -> search r0 cur (g s) = search r0 cur s.
Proof.
  intros H0. induction s as [|c s IH]; intros cur Hcur.
  - rewrite g_nil. reflexivity.
  - rewrite g_cons. cbn [search].
    destruct (deriv_closed cur c Hcur) as [E C]. rewrite E.
    rewrite IH; [reflexivity|]. now apply alt_closed.
Qed.

Lemma safety_rules_closed :
  Forall (fun r => case_closed f (sr_detect r) /\ case_closed f (sr_unless r)) safetyRules.
Proof.
  pose proof lit_i_closed. pose proof ichr_closed. pose proof nichr_closed.
  pose proof dot_closed.
  repeat constructor; cbn [sr_detect sr_unless safetyRules];
    unfold dir_detect, dir_unless, find_detect, find_unless, tree_detect, tree_unless,
      git_detect, git_unless;
    repeat first [ apply seqs_closed | apply alts_closed | apply plus_closed
                 | apply Forall_cons | apply Forall_nil | exact I
                 | apply lit_i_closed | apply ichr_closed | apply nichr_closed
                 | apply dot_closed | split ]; cbn [map]; cbn [case_closed]; auto.
Qed.

Lemma check_safety_fold (rules : list safety_rule) (s : string) :
  Forall (fun r => case_closed f (sr_detect r) /\ case_closed f (sr_unless r)) rules ->
  check_safety rules (g s) = check_safety rules s.
Proof.
  induction 1 as [|r rules [Hd Hu] Hrs IH]; [reflexivity|]. cbn [check_safety].
  unfold safety_fires, test. rewrite !search_fold by assumption. rewrite IH.
  reflexivity.
Qed.

End Fold.

(** The four hang rules are case-insensitive: upper-casing or lower-casing
    the ASCII letters of a command never changes which rule, if any,
    fires (so [DIR /S C:\Users] is refused like [dir /s C:\Users]). *)
Theorem safety_rules_ignore_case (command : string) :
  check_safety safetyRules (uppercase command) = check_safety safetyRules command /\
  check_safety safetyRules (lowercase command) = check_safety safetyRules command.
Proof.
  split.
  - apply (check_safety_fold to_upper uppercase eq_refl (fun _ _ => eq_refl)).
    exact (safety_rules_closed to_upper lower_of_upper upper_of_upper line_terminator_upper).
  - apply (check_safety_fold to_lower lowercase eq_refl (fun _ _ => eq_refl)).
    exact (safety_rules_closed to_lower lower_of_lower upper_of_lower line_terminator_lower).
Qed.

End CaseFoldFacts.

Module GitPathFacts.
Import Setup StringFacts.

Lemma split_on_nosep (sep : ascii) (x : string) :
  count_char sep x = 0%nat -> split_on sep x = [x].
Proof.
  induction x as [|c x IH]; [reflexivity|]. cbn [count_char split_on].
  destruct (Ascii.eqb_spec sep c) as [<-|Hne]; [discriminate|].
  rewrite (proj2 (Ascii.eqb_neq c sep) (not_eq_sym Hne)). cbn. intros H. rewrite (IH H).
  reflexivity.
Qed.

Lemma split_on_app (sep : ascii) (x rest : string) :
  count_char sep x = 0%nat ->
  split_on sep (x ++ String sep rest) = x :: split_on sep rest.
Proof.
  induction x as [|c x IH]; cbn [count_char split_on append].
  - rewrite Ascii.eqb_refl. reflexivity.
  - destruct (Ascii.eqb_spec sep c) as [<-|Hne]; [discriminate|].
    rewrite (proj2 (Ascii.eqb_neq c sep) (not_eq_sym Hne)). cbn. intros H. rewrite (IH H).
    reflexivity.
Qed.

Lemma split_join (sep : ascii) (xs : list string) :
  xs <> [] -> Forall (fun x => count_char sep x = 0%nat) xs ->
  split_on sep (join sep xs) = xs.
Proof.
  unfold join. induction xs as [|x xs IH]; intros Hne Hall; [contradiction|].
  inversion Hall as [|? ? Hx Hxs]; subst.
  destruct xs as [|y ys].
  - cbn. exact (split_on_nosep sep x Hx).
  - change (String.concat (String sep EmptyString) (x :: y :: ys))
      with (x ++ String sep EmptyString ++ String.concat (String sep EmptyString) (y :: ys)).
    cbn [append]. rewrite (split_on_app sep x _ Hx), IH; [reflexivity | discriminate | exact Hxs].
Qed.

Lemma split_on_parts (sep : ascii) (s : string) :
  Forall (fun x => count_char sep x = 0%nat) (split_on sep s).
Proof.
  induction s as [|c s IH]; cbn [split_on]; [repeat constructor|].
  destruct (Ascii.eqb_spec c sep) as [->|Hne].
  - constructor; [reflexivity | exact IH].
  - destruct (split_on sep s) as [|x xs]; constructor.
    + cbn. destruct (Ascii.eqb_spec sep c); [congruence | reflexivity].
    + constructor.
    + inversion IH as [|? ? Hx Hxs]; subst. cbn.
      destruct (Ascii.eqb_spec sep c); [congruence | exact Hx].
    + inversion IH; assumption.
Qed.

(** With [C:\Program Files\Git\cmd] present, the new [PATH] is, entry by
    entry, that directory followed by the old entries in their order,
    minus those naming both "scoop" and "git" in any letter case; so no
    Scoop Git entry is left.  Without it, [PATH] is untouched. *)
Theorem setupGitPath_entries (PATH : option string) :
  setupGitPath false PATH = PATH /\
  exists newPATH,
    setupGitPath true PATH = Some newPATH /\
    split_on ";" newPATH =
      programFilesGit ::
      filter (fun p => negb (is_scoop_git p))
             (split_on ";" (match PATH with Some s => s | None => EmptyString end)) /\
    (forall p, In p (split_on ";" newPATH) -> is_scoop_git p = false).
Proof.
  split; [reflexivity|]. eexists. split; [reflexivity|].
  assert (Hs : split_on ";"
                 (join ";" (programFilesGit ::
                   filter (fun p => negb (is_scoop_git p))
                          (split_on ";" (match PATH with Some s => s | None => EmptyString end)))) =
               programFilesGit ::
                 filter (fun p => negb (is_scoop_git p))
                        (split_on ";" (match PATH with Some s => s | None => EmptyString end))).
  { apply split_join; [discriminate|]. constructor; [reflexivity|].
    apply Forall_forall. intros x Hx. apply filter_In in Hx as [Hx _].
    exact (proj1 (Forall_forall _ _) (split_on_parts ";" _) x Hx). }
  split; [exact Hs|]. rewrite Hs. intros p [<-|Hp]; [reflexivity|].
  apply filter_In in Hp as [_ Hp]. now apply negb_true_iff.
Qed.

End GitPathFacts.

Module EnvironmentFacts.
Import Setup StringFacts.

Definition no_space (s : string) : bool :=
  forallb (fun c => negb (is_space c)) (list_ascii_of_string s).

Lemma no_space_app (a b : string) : no_space (a ++ b) = no_space a && no_space b.
Proof.
  unfold no_space. induction a as [|c a IH]; [reflexivity|].
  cbn [append list_ascii_of_string forallb]. rewrite IH. apply andb_assoc.
Qed.

Lemma digit_no_space (k : nat) : (k < 10)%nat -> is_space (ascii_of_nat (48 + k)) = false.
Proof. intros H. do 10 (destruct k as [|k]; [reflexivity|]). lia. Qed.

Lemma digits_no_space (fuel n : nat) (acc : string) :
  no_space acc = true -> no_space (digits_fuel fuel n acc) = true.
Proof.
  revert n acc. induction fuel as [|fuel IH]; intros n acc H; [exact H|]. cbn [digits_fuel].
  assert (Hd : no_space (String (ascii_of_nat (48 + Nat.modulo n 10)) acc) = true).
  { unfold no_space in *. cbn [list_ascii_of_string forallb].
    rewrite digit_no_space by (apply Nat.mod_upper_bound; lia). exact H. }
  destruct (Nat.ltb n 10); [exact Hd | exact (IH _ _ Hd)].
Qed.

Lemma show_Z_shape (z : Z) : show_Z z <> EmptyString /\ no_space (show_Z z) = true.
Proof.
  unfold show_Z. cbn [digits_fuel].
  set (n := Z.to_nat (Z.abs z)).
  assert (Hd : no_space (String (ascii_of_nat (48 + Nat.modulo n 10)) EmptyString) = true).
  { unfold no_space. cbn [list_ascii_of_string forallb].
    rewrite digit_no_space by (apply Nat.mod_upper_bound; lia). reflexivity. }
  assert (H : digits_fuel (S n) n EmptyString <> EmptyString /\
              no_space (digits_fuel (S n) n EmptyString) = true).
  { cbn [digits_fuel]. destruct (Nat.ltb n 10).
    - split; [discriminate | exact Hd].
    - split; [|exact (digits_no_space _ _ _ Hd)].
      assert (Hne : forall fuel m acc, acc <> EmptyString ->
                      digits_fuel fuel m acc <> EmptyString).
      { induction fuel as [|fuel IH]; intros m acc Ha; [exact Ha|]. cbn [digits_fuel].
        destruct (Nat.ltb m 10); [discriminate | apply IH; discriminate]. }
      apply Hne. discriminate. }
  destruct (z <? 0); [|exact H].
  split; [discriminate|]. cbn [append]. cbn. exact (proj2 H).
Qed.

Lemma trim_start_app (a n : string) :
  n <> EmptyString -> no_space n = true ->
  exists a', trim_start (a ++ n) = a' ++ n.
Proof.
  intros Hne Hn. induction a as [|c a IH].
  - exists EmptyString. destruct n as [|d n]; [contradiction|].
    cbn in Hn |- *. apply andb_true_iff in Hn as [Hd _]. apply negb_true_iff in Hd.
    rewrite Hd. reflexivity.
  - cbn [append trim_start]. destruct (is_space c); [exact IH|].
    exists (String c a). reflexivity.
Qed.

Lemma trim_end_no_space (n : string) : no_space n = true -> trim_end n = n.
Proof.
  induction n as [|c n IH]; [reflexivity|]. cbn. intros H.
  apply andb_true_iff in H as [Hc H]. apply negb_true_iff in Hc. rewrite Hc, IH by exact H.
  reflexivity.
Qed.

Lemma trim_end_app (a y : string) :
  trim_end y <> EmptyString -> trim_end (a ++ y) = a ++ trim_end y.
Proof.
  intros Hy. induction a as [|c a IH]; [reflexivity|]. cbn [append trim_end].
  rewrite IH. destruct (is_space c); [|reflexivity].
  destruct (a ++ trim_end y) eqn:E; [|reflexivity].
  destruct a; [exfalso; exact (Hy E) | discriminate].
Qed.

Lemma trim_keeps (a n : string) :
  n <> EmptyString -> no_space n = true -> exists a', trim (a ++ n) = a' ++ n.
Proof.
  intros Hne Hn. destruct (trim_start_app a n Hne Hn) as [a' Ha]. exists a'.
  unfold trim. rewrite Ha, trim_end_app, trim_end_no_space by (rewrite ?trim_end_no_space; assumption).
  reflexivity.
Qed.

Lemma flag_shape (z : Z) :
  ("--max-old-space-size=" ++ show_Z z) <> EmptyString /\
  no_space ("--max-old-space-size=" ++ show_Z z) = true.
Proof.
  split; [discriminate|]. rewrite no_space_app, (proj2 (show_Z_shape z)). reflexivity.
Qed.

(** The [NODE_OPTIONS] part of [setupEnvironment]: a value that already
    mentions [max-old-space-size] is left as it is (the user's choice
    wins); otherwise the result carries [--max-old-space-size=N] with [N]
    the computed heap size, at most 32768 MB (and not negative).  Running
    the setup again changes nothing. *)
Theorem setupEnvironment_heap_flag (totalmem : Z) (NODE_OPTIONS : option string) :
  (forall o, NODE_OPTIONS = Some o -> includes o "max-old-space-size" = true ->
     setupEnvironment_NODE_OPTIONS totalmem NODE_OPTIONS = NODE_OPTIONS) /\
  ((forall o, NODE_OPTIONS = Some o -> includes o "max-old-space-size" = false) ->
   exists v, setupEnvironment_NODE_OPTIONS totalmem NODE_OPTIONS = Some v /\
     includes v ("--max-old-space-size=" ++ show_Z (heapSizeMB totalmem)) = true) /\
  setupEnvironment_NODE_OPTIONS totalmem (setupEnvironment_NODE_OPTIONS totalmem NODE_OPTIONS) =
    setupEnvironment_NODE_OPTIONS totalmem NODE_OPTIONS /\
  (0 <= totalmem -> 0 <= heapSizeMB totalmem <= 32768).
Proof.
  set (flag := "--max-old-space-size=" ++ show_Z (heapSizeMB totalmem)).
  destruct (flag_shape (heapSizeMB totalmem)) as [Hfne Hfns]. fold flag in Hfne, Hfns.
  assert (Hadd : forall o, exists a',
             trim (o ++ " " ++ flag) = a' ++ flag).
  { intros o. rewrite <- str_app_assoc. apply trim_keeps; assumption. }
  assert (Hmax : forall a', includes (a' ++ flag) "max-old-space-size" = true).
  { intros a'. unfold flag.
    change ("--max-old-space-size=" ++ show_Z (heapSizeMB totalmem)) with
      ("--" ++ "max-old-space-size" ++ "=" ++ show_Z (heapSizeMB totalmem)).
    rewrite <- str_app_assoc. apply includes_app_mid. }
  assert (Hflag : forall a', includes (a' ++ flag) flag = true).
  { intros a'. rewrite <- (str_app_nil_r flag) at 1. rewrite <- str_app_assoc.
    rewrite str_app_assoc. apply includes_app_mid. }
  split; [|split; [|split]].
  - intros o -> Ho. unfold setupEnvironment_NODE_OPTIONS. rewrite Ho. reflexivity.
  - intros Hno. unfold setupEnvironment_NODE_OPTIONS.
    destruct NODE_OPTIONS as [o|].
    + rewrite (Hno o eq_refl). destruct (Hadd o) as [a' Ha]. fold flag.
      change (" --max-old-space-size=" ++ show_Z (heapSizeMB totalmem)) with (" " ++ flag).
      rewrite Ha. eexists; split; [reflexivity | apply Hflag].
    + destruct (Hadd EmptyString) as [a' Ha].
      change (" --max-old-space-size=" ++ show_Z (heapSizeMB totalmem)) with (" " ++ flag).
      rewrite Ha. eexists; split; [reflexivity | apply Hflag].
  - destruct (match NODE_OPTIONS with Some o => includes o "max-old-space-size" | None => false end)
      eqn:Hi.
    + assert (E : setupEnvironment_NODE_OPTIONS totalmem NODE_OPTIONS = NODE_OPTIONS)
        by (unfold setupEnvironment_NODE_OPTIONS; rewrite Hi; reflexivity).
      rewrite !E. reflexivity.
    + destruct (Hadd (match NODE_OPTIONS with Some o => o | None => EmptyString end)) as [a' Ha].
      assert (E : setupEnvironment_NODE_OPTIONS totalmem NODE_OPTIONS = Some (a' ++ flag)).
      { unfold setupEnvironment_NODE_OPTIONS. rewrite Hi.
        change (" --max-old-space-size=" ++ show_Z (heapSizeMB totalmem)) with (" " ++ flag).
        rewrite Ha. reflexivity. }
      rewrite E. unfold setupEnvironment_NODE_OPTIONS at 1. rewrite Hmax. reflexivity.
  - intros H. unfold heapSizeMB. split; [|apply Z.le_min_r].
    apply Z.min_glb; [|lia]. apply Z.div_pos; [|lia].
    apply Z.mul_nonneg_nonneg; [apply Z.div_pos|]; lia.
Qed.

End EnvironmentFacts.

Module WslFacts.
Import Wsl StringFacts.

Ltac chars c := destruct c as [[] [] [] [] [] [] [] []]; reflexivity.

Lemma eq_i_lower (c : ascii) : eq_i (to_lower c) c = true.
Proof. unfold eq_i. rewrite (Ascii.eqb_refl (to_lower c)), orb_true_r. reflexivity. Qed.

Lemma prefix_i_lower (w x : string) : prefix_i (lowercase w) (w ++ x) = Some x.
Proof.
  induction w as [|c w IH]; [destruct x; reflexivity|].
  cbn [lowercase append prefix_i]. rewrite eq_i_lower. exact IH.
Qed.

Lemma lower_dot (c : ascii) : Ascii.eqb (to_lower c) "." = Ascii.eqb c ".".
Proof. chars c. Qed.

Lemma eq_i_backslash (c : ascii) : eq_i "\" c = Ascii.eqb "\" c.
Proof. chars c. Qed.

Lemma take_run_distro (distro tail : string) :
  count_char "\" distro = 0%nat ->
  (tail = EmptyString \/ exists t', tail = String "\" t') ->
  take_run (fun c => negb (Ascii.eqb c "\"%char)) (distro ++ tail) = (distro, tail).
Proof.
  intros Hd Ht. induction distro as [|c distro IH]; cbn [append take_run].
  - destruct Ht as [-> | (t' & ->)]; reflexivity.
  - cbn [count_char] in Hd. destruct (Ascii.eqb_spec "\" c) as [<-|Hne]; [discriminate|].
    rewrite (proj2 (Ascii.eqb_neq c "\") (not_eq_sym Hne)). cbn [negb].
    rewrite IH by exact Hd. reflexivity.
Qed.

Lemma take_run_all (p : ascii -> bool) (s : string) :
  forallb p (list_ascii_of_string s) = true -> take_run p s = (s, EmptyString).
Proof.
  induction s as [|c s IH]; [reflexivity|]. cbn [list_ascii_of_string forallb take_run].
  intros H. apply andb_true_iff in H as [Hc H]. rewrite Hc, IH by exact H. reflexivity.
Qed.

(** A current directory [\\wsl$\<distro><tail>] or
    [\\wsl.localhost\<distro><tail>] (the letters in any case) makes the
    launcher run [wsl -d <distro> --cd <path> -- claude], where [distro]
    is the whole first segment and [path] is [tail] with forward slashes,
    or [/] when [tail] is empty; a directory that does not start with a
    backslash, such as [C:\...], is not redirected. *)
Theorem handleWslPath_redirect (w h distro tail : string) :
  (lowercase w = "wsl" ->
   (h = "$" \/ lowercase h = ".localhost") ->
   distro <> EmptyString -> count_char "\" distro = 0%nat ->
   (tail = EmptyString \/ exists t', tail = String "\" t') ->
   forallb not_line_terminator (list_ascii_of_string tail) = true ->
   handleWslPath (Some ("\\" ++ w ++ h ++ "\" ++ distro ++ tail)) =
   Some ["-d"; distro; "--cd";
         (if String.eqb tail EmptyString then "/" else Paths.backslash_to_slash tail);
         "--"; "claude"]) /\
  (forall c cwd, c <> "\"%char -> handleWslPath (Some (String c cwd)) = None).
Proof.
  split.
  - intros Hw Hh Hne Hd Ht Hl. unfold handleWslPath, wslMatch.
    replace ("\\" ++ w ++ h ++ "\" ++ distro ++ tail)
      with (("\\" ++ w) ++ (h ++ "\" ++ distro ++ tail)) by apply str_app_assoc.
    replace "\\wsl" with (lowercase ("\\" ++ w)) by (rewrite lowercase_app, Hw; reflexivity).
    rewrite prefix_i_lower.
    assert (Hh' : match prefix_i "$" (h ++ "\" ++ distro ++ tail) with
                  | Some r' => Some r'
                  | None => prefix_i ".localhost" (h ++ "\" ++ distro ++ tail)
                  end = Some ("\" ++ distro ++ tail)).
    { destruct Hh as [-> | Hh].
      - reflexivity.
      - destruct h as [|c h]; [discriminate|].
        cbn [lowercase] in Hh. injection Hh as Hc Hrest.
        assert (Hdot : c = "."%char)
          by (apply Ascii.eqb_eq; rewrite <- lower_dot, Hc; reflexivity).
        subst c.
        assert (Hp : prefix_i "$" (String "." h ++ "\" ++ distro ++ tail) = None)
          by reflexivity.
        rewrite Hp.
        replace ".localhost" with (lowercase (String "." h))
          by (cbn [lowercase]; rewrite Hrest; reflexivity).
        apply prefix_i_lower. }
    rewrite Hh'. cbn [append prefix_i]. rewrite eq_i_backslash, Ascii.eqb_refl.
    destruct (prefix_i EmptyString (distro ++ tail)) eqn:E; [|destruct (distro ++ tail); discriminate].
    replace s with (distro ++ tail) by (destruct (distro ++ tail); injection E; auto).
    rewrite take_run_distro by assumption.
    destruct (String.eqb_spec distro EmptyString) as [He|_]; [contradiction|].
    rewrite take_run_all by exact Hl. cbn [fst].
    destruct Ht as [-> | (t' & ->)]; reflexivity.
  - intros c cwd Hc. unfold handleWslPath, wslMatch. cbn [prefix_i].
    rewrite eq_i_backslash. destruct (Ascii.eqb_spec "\" c); [congruence | reflexivity].
Qed.

Lemma handleWslPath_redirect_witness :
  handleWslPath (Some ("\\" ++ "WSL" ++ ".LocalHost" ++ "\" ++ "Ubuntu" ++ "\home\me")) =
  Some ["-d"; "Ubuntu"; "--cd"; "/home/me"; "--"; "claude"].
Proof.
  apply (proj1 (handleWslPath_redirect "WSL" ".LocalHost" "Ubuntu" "\home\me"));
    [reflexivity | right; reflexivity | discriminate | reflexivity
    | right; eexists; reflexivity | reflexivity].
Defined.

End WslFacts.

Module SpawnFacts.
Import Spawn.




End SpawnFacts.

Module HookChildFacts.
Import Events EventsFacts HookChild StringFacts.

Lemma concat_cons (x : string) (xs : list string) :
  String.concat EmptyString (x :: xs) = x ++ String.concat EmptyString xs.
Proof. destruct xs; [now rewrite str_app_nil_r | reflexivity]. Qed.

Lemma stdin_write_all_spec (h : hook_child) (chunks : list (option string)) :
  hc (stdin_write_all h chunks) = hc h /\
  stdinData (stdin_write_all h chunks) =
    stdinData h ++ String.concat EmptyString (map chunk_text chunks).
Proof.
  revert h. induction chunks as [|chunk chunks IH]; intros h.
  - split; [reflexivity|]. symmetry. apply str_app_nil_r.
  - cbn [stdin_write_all map]. destruct (IH (fst (stdin_write h chunk))) as [IH1 IH2].
    rewrite IH1, IH2, concat_cons. split; [reflexivity|].
    cbn [fst stdin_write stdinData]. apply str_app_assoc.
Qed.

(** A hook child answers once its stdin is ended, never before.  Creating
    it and writing to it emit nothing, and [end()] only queues the reply;
    once the nextTick queue has run, a listener on its [stdout] [data]
    event and one on its [close] event have received exactly the response
    of [handleFn] to all the chunks written (missing or empty ones adding
    nothing), then [close] with exit code 0. *)
Theorem hook_child_response (w : world) (handleFn : string -> string) (pid : Z)
  (chunks : list (option string)) (last : option string) :
  wf w = true ->
  forall h w1 d w2 cl w3 h' w4,
    createHookChildProcess w pid = (h, w1) ->
    on w1 (child_stdout (hc h)) "data" = (d, w2) ->
    on w2 (child (hc h)) "close" = (cl, w3) ->
    stdin_end handleFn w3 (stdin_write_all h chunks) last = (h', w4) ->
    log w4 = log w /\
    filter (fun x => Nat.eqb (d_listener x) d || Nat.eqb (d_listener x) cl)
           (log (run_ticks w4)) =
    [{| d_listener := d; d_name := "data";
        d_args := [AData (handleFn (String.concat EmptyString (map chunk_text chunks) ++
                                    chunk_text last))] |};
     {| d_listener := cl; d_name := "close"; d_args := [ACode 0] |}].
Proof.
  intros Hwf. apply wf_spec in Hwf as (Hl & Ht & Hd).
  intros h w1 d w2 cl w3 h' w4 Hc Hd1 Hd2 He.
  unfold createHookChildProcess in Hc. injection Hc as <- <-.
  destruct (stdin_write_all_spec
              {| hc := {| child := next_id w; child_stdout := S (S (next_id w));
                          child_stderr := S (S (S (next_id w))); child_pid := pid |};
                 hc_stdin := S (next_id w); stdinData := EmptyString |} chunks)
    as [Hhc Hdata].
  cbn [stdinData] in Hdata.
  unfold stdin_end in He. rewrite Hhc, Hdata in He. cbn [append hc] in He.
  injection He as <- <-.
  unfold on in Hd1, Hd2. cbn in Hd1, Hd2.
  injection Hd1 as <- <-. injection Hd2 as <- <-.
  split; [reflexivity|].
  set (n := next_id w) in *.
  set (P := fun x : delivery =>
              Nat.eqb (d_listener x) (S (S (S (S n)))) ||
              Nat.eqb (d_listener x) (S (S (S (S (S n)))))).
  set (L1 := {| l_id := S (S (S (S n))); l_target := S (S n); l_name := "data" |}).
  set (L2 := {| l_id := S (S (S (S (S n)))); l_target := n; l_name := "close" |}).
  assert (Hold : forall em l, In l (listeners w) -> P (delivery_of em l) = false).
  { intros em l Hin. destruct (Hl l Hin) as [Hid _]. unfold P, delivery_of. cbn.
    decide_nat_eqb. reflexivity. }
  assert (Hkill : forall em,
             filter P (map (delivery_of em) (filter (matches em) (listeners w))) = []).
  { intros em. apply filter_deliveries_nil. intros l Hin _. now apply Hold. }
  assert (Hlog0 : filter P (log w) = []).
  { apply filter_none. intros x Hx. specialize (Hd x Hx). unfold P.
    decide_nat_eqb. reflexivity. }
  unfold run_ticks, nextTick. cbn [ticks listeners log next_id].
  rewrite fold_left_app. cbn [fold_left].
  destruct (fold_ticks_unseen P (ticks w)
              {| next_id := S (S (S (S (S (S n)))));
                 listeners := ((listeners w ++ [L1]) ++ [L2])%list;
                 ticks := []; log := log w |}) as [H1 H2].
  { cbn [listeners]. intros cb em l Hcb Hem Hin Hm.
    specialize (Ht cb em Hcb Hem). rewrite <- app_assoc in Hin.
    apply in_app_or in Hin as [Hin | [<- | [<- | []]]].
    - now apply Hold.
    - unfold matches in Hm. apply andb_true_iff in Hm as [Hm _].
      apply Nat.eqb_eq in Hm. unfold L1, L2 in Hm. cbn [l_target] in Hm. lia.
    - unfold matches in Hm. apply andb_true_iff in Hm as [Hm _].
      apply Nat.eqb_eq in Hm. unfold L1, L2 in Hm. cbn [l_target] in Hm. lia. }
  revert H1 H2.
  generalize (fold_left (fun acc cb => fold_left emit cb acc) (ticks w)
               {| next_id := S (S (S (S (S (S n)))));
                  listeners := ((listeners w ++ [L1]) ++ [L2])%list;
                  ticks := []; log := log w |}).
  intros w' H1 H2. cbn [log listeners] in H1, H2.
  rewrite !emit_log, !emit_listeners, H2, !filter_app, H1, Hlog0.
  rewrite !map_app, !filter_app, !Hkill.
  unfold L1, L2, P, delivery_of, matches.
  do 3 (cbn -[Nat.eqb]; decide_nat_eqb). reflexivity.
Qed.

(** The theorem from the empty world: the child gets ids 0 to 3, the two
    listeners ids 4 and 5, and the input arrives in three pieces. *)
Lemma hook_child_response_witness :
  let w0 := Build_world 0 [] [] [] in
  let handleFn := fun s => "echo:" ++ s in
  let '(h, w1) := createHookChildProcess w0 7 in
  let '(d, w2) := on w1 (child_stdout (hc h)) "data" in
  let '(cl, w3) := on w2 (child (hc h)) "close" in
  let '(h', w4) := stdin_end handleFn w3 (stdin_write_all h [Some "{"; None]) (Some "}") in
  log w4 = [] /\
  filter (fun x => Nat.eqb (d_listener x) 4%nat || Nat.eqb (d_listener x) 5%nat)
         (log (run_ticks w4)) =
  [{| d_listener := 4%nat; d_name := "data"; d_args := [AData "echo:{}"] |};
   {| d_listener := 5%nat; d_name := "close"; d_args := [ACode 0] |}].
Proof.
  exact (hook_child_response (Build_world 0 [] [] []) (fun s => "echo:" ++ s) 7
           [Some "{"; None] (Some "}") eq_refl _ _ _ _ _ _ _ _
           eq_refl eq_refl eq_refl eq_refl).
Defined.

End HookChildFacts.

Module SettingsPathFacts.
Import Settings StringFacts PathFacts.

Lemma prefix_count (c : ascii) (n h : string) :
  String.prefix n h = true -> (count_char c n <= count_char c h)%nat.
Proof.
  revert h. induction n as [|d n IH]; intros h H; [cbn; lia|].
  destruct h as [|e h]; [discriminate|]. cbn in H.
  destruct (ascii_dec d e) as [<-|]; [|discriminate].
  cbn [count_char]. specialize (IH h H). lia.
Qed.

Lemma includes_count (c : ascii) (h n : string) :
  includes h n = true -> (count_char c n <= count_char c h)%nat.
Proof.
  induction h as [|e h IH]; cbn [includes].
  - rewrite orb_false_r. apply prefix_count.
  - intros H. apply orb_true_iff in H as [H|H].
    + exact (prefix_count c n _ H).
    + cbn [count_char]. specialize (IH H). lia.
Qed.

Lemma b2s_count (s : string) : count_char "\"%char (Paths.backslash_to_slash s) = 0%nat.
Proof.
  induction s as [|c s IH]; [reflexivity|]. rewrite b2s_cons. cbn [count_char].
  rewrite IH. destruct (Ascii.eqb_spec c "\"%char) as [->|Hne]; [reflexivity|].
  destruct (Ascii.eqb_spec "\"%char c); [congruence | reflexivity].
Qed.

(** [readFileSync] recognises the settings file under either separator:
    any path containing [.claude\settings.json] or [.claude/settings.json]
    is intercepted.  Since the path is normalised to forward slashes first,
    the test for the backslash form never decides anything: the check is
    exactly "the normalised path contains [.claude/settings.json]". *)
Theorem settings_path_either_separator (a b : string) :
  is_settings_path (a ++ ".claude\settings.json" ++ b) = true /\
  is_settings_path (a ++ ".claude/settings.json" ++ b) = true /\
  (forall filePath, is_settings_path filePath =
     includes (Paths.backslash_to_slash filePath) ".claude/settings.json").
Proof.
  assert (Hdead : forall filePath,
    includes (Paths.backslash_to_slash filePath) ".claude\settings.json" = false).
  { intros filePath. destruct (includes _ _) eqn:H; [|reflexivity].
    apply (includes_count "\"%char) in H. rewrite b2s_count in H. cbn in H. lia. }
  split; [|split].
  - unfold is_settings_path. rewrite !b2s_app. apply orb_true_iff. left.
    apply includes_app_mid.
  - unfold is_settings_path. rewrite !b2s_app. apply orb_true_iff. left.
    apply includes_app_mid.
  - intros filePath. unfold is_settings_path. rewrite Hdead, orb_false_r. reflexivity.
Qed.

End SettingsPathFacts.
